(** * tacotron2/data_utils.py: loaders and batch collation

    A shallow embedding of [data_utils.py]: the two dataset classes
    [PPG_MelLoader] and [TextMelLoader], and the batch collator
    [TextMelCollate].  Python exceptions are values of an error monad,
    the interpreter's global random generator is threaded explicitly, and
    the external numerical routines (file readers, the STFT, the speaker
    encoder, [torch.sort], the Mersenne Twister) are parameters. *)

From Stdlib Require Import Ascii String.
From stdpp Require Import base list strings sorting pretty numbers gmap.

Open Scope string_scope.
Open Scope list_scope.
Open Scope nat_scope.

(** ** The fragment of Python the file relies on *)
Module Py.

(** Exceptions raised by the code or by the library calls it makes. *)
Inductive exn : Type :=
| AttributeError (name : string)
| AssertionError (msg : string)
| ValueError (msg : string)
| IndexError
| TypeError
| ZeroDivisionError
| RuntimeError
| OSError.

Inductive result (A : Type) : Type :=
| Ok (a : A)
| Raise (e : exn).
Arguments Ok {A} a.
Arguments Raise {A} e.

#[export] Instance result_ret : MRet result := λ A a, Ok a.
#[export] Instance result_bind : MBind result := λ A B f m,
  match m with
  | Ok a => f a
  | Raise e => Raise e
  end.

#[export] Instance result_fmap : FMap result := λ A B f m,
  match m with
  | Ok a => Ok (f a)
  | Raise e => Raise e
  end.

(** [str.format] restricted to what the two format strings of the file
    use: literal text, the escapes [{{] and [}}], and automatically
    numbered fields [{}].  Each [{}] consumes the next positional
    argument (already rendered with [str]); a field with no argument left
    raises [IndexError], as CPython does.  Other replacement fields do not
    occur in this file and are rejected. *)
Fixpoint format (fmt : string) (args : list string) : result string :=
  match fmt with
  | "" => Ok ""
  | String "{"%char (String "}"%char rest) =>
      match args with
      | [] => Raise IndexError
      | a :: args' => s ← format rest args'; Ok (a +:+ s)
      end
  | String "{"%char (String "{"%char rest) =>
      s ← format rest args; Ok (String "{"%char s)
  | String "}"%char (String "}"%char rest) =>
      s ← format rest args; Ok (String "}"%char s)
  | String "{"%char _ => Raise (ValueError "unsupported replacement field")
  | String "}"%char _ =>
      Raise (ValueError "Single '}' encountered in format string")
  | String c rest => s ← format rest args; Ok (String c s)
  end.

(** [assert cond, msg].  The statement is compiled away when [__debug__]
    is false ([python -O]); neither operand is evaluated then.  The message
    is only evaluated when the condition is false. *)
Definition py_assert (debug : bool) (cond : result bool) (msg : result string)
  : result unit :=
  if debug then
    c ← cond;
    if c : bool then Ok tt else m ← msg; Raise (AssertionError m)
  else Ok tt.

(** [l[i]] on a list: negative indices count from the end, anything out of
    range raises [IndexError]. *)
Definition getitem {A} (l : list A) (i : Z) : result A :=
  let k := if decide (i < 0)%Z then (i + Z.of_nat (length l))%Z else i in
  if decide (k < 0)%Z then Raise IndexError
  else match l !! Z.to_nat k with
       | Some x => Ok x
       | None => Raise IndexError
       end.

(** The objects compared by the [==] of [get_ppg]: the result of [type(_)]
    and a string literal. *)
Inductive pytype : Type :=
| numpy_ndarray
| builtin_list
| builtin_float.

Inductive pyobj : Type :=
| OType (t : pytype)
| OStr (s : string).

#[export] Instance pytype_eq_dec : EqDecision pytype.
Proof. solve_decision. Defined.

(** [a == b]: type objects compare by identity, strings by contents, and a
    type object never equals a string (both [__eq__] return
    [NotImplemented], so the comparison falls back to identity). *)
Definition py_eq (a b : pyobj) : bool :=
  match a, b with
  | OType s, OType t => bool_decide (s = t)
  | OStr s, OStr t => bool_decide (s = t)
  | _, _ => false
  end.

(** Attribute lookup [obj.name] on an instance of a class with no
    properties: the instance's own attributes, then the class namespace,
    then what the base classes provide; a name found nowhere raises
    [AttributeError]. *)
Inductive attribute (M : Type) : Type :=
| Field (name : string)
| Method (m : M)
| Inherited (name : string).
Arguments Field {M} name.
Arguments Method {M} m.
Arguments Inherited {M} name.

Definition getattr {M} (instance_dict : list string)
    (class_dict : gmap string M) (bases : list string) (name : string)
  : result (attribute M) :=
  if bool_decide (name ∈ instance_dict) then Ok (Field name)
  else match class_dict !! name with
       | Some m => Ok (Method m)
       | None =>
           if bool_decide (name ∈ bases) then Ok (Inherited name)
           else Raise (AttributeError name)
       end.

(** What [torch.utils.data.Dataset] defines for its subclasses. *)
Definition Dataset_dict : list string := ["__getitem__"; "__add__"].

End Py.
Import Py.

(** ** The global generator of Python's [random] module

    The Mersenne Twister itself is not modelled: a generator is any state
    type with the two operations the file reaches, [random.seed(a)], which
    replaces the state by one computed from [a] alone, and
    [Random._randbelow(n)], which draws an integer and advances the
    state. *)
Module Random.
Section generator.
Context {state : Type}.
Variable randbelow : nat → state → nat * state.
Context {A : Type}.

(** [x[i], x[j] = x[j], x[i]] *)
Definition swap (x : list A) (i j : nat) : result (list A) :=
  match x !! j, x !! i with
  | Some xj, Some xi => Ok (<[j:=xi]> (<[i:=xj]> x))
  | _, _ => Raise IndexError
  end.

(** The loop of [random.shuffle], [for i in reversed(range(1, len(x)))],
    entered at index [i]:
    [j = randbelow(i + 1); x[i], x[j] = x[j], x[i]]. *)
Fixpoint shuffle_from (i : nat) (x : list A) (g : state)
  : result (list A * state) :=
  match i with
  | 0 => Ok (x, g)
  | S i' =>
      let '(j, g') := randbelow (S i) g in
      x' ← swap x i j;
      shuffle_from i' x' g'
  end.

Definition shuffle (x : list A) (g : state) : result (list A * state) :=
  shuffle_from (length x - 1) x g.
End generator.

(** [_randbelow(n)] returns an integer in [range(n)]. *)
Definition randbelow_spec {state : Type}
    (randbelow : nat → state → nat * state) : Prop :=
  ∀ (n : nat) (g : state), (0 < n)%nat → ((randbelow n g).1 < n)%nat.
End Random.

(** ** Tensors and arrays

    A dense array is its shape together with its entries, read by index.
    Element types are [Z] for the integer tensors and an abstract type [F]
    for the floating-point ones; one-dimensional tensors are lists. *)
Module Tensor.

Record tensor2 (A : Type) : Type := Tensor2 {
  size0 : nat;
  size1 : nat;
  item2 : nat → nat → A
}.
Arguments Tensor2 {A} _ _ _.
Arguments size0 {A} _.
Arguments size1 {A} _.
Arguments item2 {A} _ _ _.

Record tensor3 (A : Type) : Type := Tensor3 {
  dim0 : nat;
  dim1 : nat;
  dim2 : nat;
  item3 : nat → nat → nat → A
}.
Arguments Tensor3 {A} _ _ _ _.
Arguments dim0 {A} _.
Arguments dim1 {A} _.
Arguments dim2 {A} _.
Arguments item3 {A} _ _ _ _.

(** [t.zero_()] on a tensor of the given shape. *)
Definition zeros2 {A} (z : A) (n m : nat) : tensor2 A :=
  Tensor2 n m (λ _ _, z).
Definition zeros3 {A} (z : A) (n c m : nat) : tensor3 A :=
  Tensor3 n c m (λ _ _ _, z).

(** Row [k] of a two-dimensional array, as iteration over it yields it. *)
Definition row {A} (t : tensor2 A) (k : nat) : list A :=
  item2 t k <$> seq 0 (size1 t).

(** Assigning a value whose extent along one axis is [v] into a view whose
    extent is [w] needs [v = w], or [v = 1] (the value is then repeated). *)
Definition expandable (v w : nat) : bool :=
  bool_decide (v = w) || bool_decide (v = 1).
Definition source_index (v k : nat) : nat :=
  if decide (v = 1) then 0 else k.

End Tensor.
Import Tensor.

(** ** [layers.TacotronSTFT]

    The class lives in [layers.py]; here only its constructor arguments
    matter, which it keeps as attributes of the same names. *)
Module Layers.
Record TacotronSTFT (F : Type) : Type := Build_TacotronSTFT {
  filter_length : Z;
  hop_length : Z;
  win_length : Z;
  n_mel_channels : Z;
  sampling_rate : Z;
  mel_fmin : F;
  mel_fmax : F
}.
Arguments Build_TacotronSTFT {F} _ _ _ _ _ _ _.
Arguments filter_length {F} _.
Arguments hop_length {F} _.
Arguments win_length {F} _.
Arguments n_mel_channels {F} _.
Arguments sampling_rate {F} _.
Arguments mel_fmin {F} _.
Arguments mel_fmax {F} _.
End Layers.

(** ** Configuration: the options of [hparams] the file reads *)
Module Hparams.
Record hparams (F : Type) : Type := Build_hparams {
  max_wav_value : F;
  sampling_rate : Z;
  load_mel_from_disk : bool;
  filter_length : Z;
  hop_length : Z;
  win_length : Z;
  n_mel_channels : Z;
  mel_fmin : F;
  mel_fmax : F;
  text_cleaners : list string;
  seed : Z
}.
Arguments Build_hparams {F} _ _ _ _ _ _ _ _ _ _ _.
Arguments max_wav_value {F} _.
Arguments sampling_rate {F} _.
Arguments load_mel_from_disk {F} _.
Arguments filter_length {F} _.
Arguments hop_length {F} _.
Arguments win_length {F} _.
Arguments n_mel_channels {F} _.
Arguments mel_fmin {F} _.
Arguments mel_fmax {F} _.
Arguments text_cleaners {F} _.
Arguments seed {F} _.
End Hparams.

(** ** The world outside the file

    Values a speaker embedding can be, the interpreter flag [__debug__],
    and the imported routines, each returning normally or raising. *)
Module Runtime.

Inductive pyval (F : Type) : Type :=
| VNdarray (v : list F)
| VList (l : list F)
| VFloat (x : F).
Arguments VNdarray {F} v.
Arguments VList {F} l.
Arguments VFloat {F} x.

(** [type(v)] *)
Definition type_of {F} (v : pyval F) : pytype :=
  match v with
  | VNdarray _ => numpy_ndarray
  | VList _ => builtin_list
  | VFloat _ => builtin_float
  end.

(** [np.append(arr, values)] with no axis: both operands are flattened and
    concatenated into a new array; neither operand is changed. *)
Definition np_append {F} (arr : list F) (values : pyval F) : list F :=
  match values with
  | VNdarray v => arr ++ v
  | VList l => arr ++ l
  | VFloat x => arr ++ [x]
  end.

Record runtime (F : Type) : Type := Build_runtime {
  (** [__debug__]: [assert] statements are executed *)
  debug : bool;
  (** [utils.load_wav_to_torch]: samples and the file's sample rate *)
  load_wav_to_torch : string → result (list F * Z);
  (** [np.load] of a two-dimensional array file *)
  np_load : string → result (tensor2 F);
  (** [audio / max_wav_value] on one sample *)
  true_divide : F → F → F;
  (** [stft.mel_spectrogram] between [unsqueeze(0)] and [squeeze(_, 0)] *)
  mel_spectrogram : Layers.TacotronSTFT F → list F → result (tensor2 F);
  (** [encoder.embed_utterance(preprocess_wav(Path(audiopath)))] *)
  embed_utterance : string → result (pyval F);
  (** [text.text_to_sequence] *)
  text_to_sequence : string → list string → result (list Z);
  (** [utils.load_filepaths_and_PPG]: one list of fields per manifest line *)
  load_filepaths_and_PPG : string → result (list (list string));
  (** [utils.load_filepaths_and_text] *)
  load_filepaths_and_text : string → result (list (list string))
}.
Arguments debug {F} _.
Arguments load_wav_to_torch {F} _ _.
Arguments np_load {F} _ _.
Arguments true_divide {F} _ _ _.
Arguments mel_spectrogram {F} _ _ _.
Arguments embed_utterance {F} _ _.
Arguments text_to_sequence {F} _ _ _.
Arguments load_filepaths_and_PPG {F} _ _.
Arguments load_filepaths_and_text {F} _ _.

End Runtime.
Import Runtime.

(** ** class PPG_MelLoader *)
Module PPG_MelLoader.

(** The names bound in the class body. *)
Inductive method : Type :=
| def___init__
| def_get_mel_PPG_pair
| def_get_id
| def_get_mel
| def_get_ppg
| def___getitem__
| def___len__.

Definition class_dict : gmap string method :=
  list_to_map
    [("__init__", def___init__);
     ("get_mel_PPG_pair", def_get_mel_PPG_pair);
     ("get_id", def_get_id);
     ("get_mel", def_get_mel);
     ("get_ppg", def_get_ppg);
     ("__getitem__", def___getitem__);
     ("__len__", def___len__)].

(** The attributes [__init__] sets on [self]. *)
Definition instance_dict : list string :=
  ["audiopaths_and_PPG"; "max_wav_value"; "sampling_rate";
   "load_mel_from_disk"; "stft"].

Record instance (F : Type) : Type := Build_instance {
  audiopaths_and_PPG : list (list string);
  max_wav_value : F;
  sampling_rate : Z;
  load_mel_from_disk : bool;
  stft : Layers.TacotronSTFT F
}.
Arguments Build_instance {F} _ _ _ _ _.
Arguments audiopaths_and_PPG {F} _.
Arguments max_wav_value {F} _.
Arguments sampling_rate {F} _.
Arguments load_mel_from_disk {F} _.
Arguments stft {F} _.

(** The local variables of [get_ppg] once the file is loaded. *)
Record get_ppg_locals (F : Type) : Type := Build_get_ppg_locals {
  PPG_temp : tensor2 F;
  frame : option (list F)
}.
Arguments Build_get_ppg_locals {F} _ _.
Arguments PPG_temp {F} _.
Arguments frame {F} _.

Section class.
Context {F : Type} {state : Type}.
Variable rt : runtime F.
Variable seed : Z → state.
Variable randbelow : nat → state → nat * state.

Definition __init__ (audiopaths_and_PPG : string)
    (hparams : Hparams.hparams F) (g : state)
  : result (instance F * state) :=
  entries ← load_filepaths_and_PPG rt audiopaths_and_PPG;
  let stft :=
    Layers.Build_TacotronSTFT
      (Hparams.filter_length hparams) (Hparams.hop_length hparams)
      (Hparams.win_length hparams) (Hparams.n_mel_channels hparams)
      (Hparams.sampling_rate hparams) (Hparams.mel_fmin hparams)
      (Hparams.mel_fmax hparams) in
  let g := seed (Hparams.seed hparams) in
  '(entries, g) ← Random.shuffle randbelow entries g;
  Ok (Build_instance entries (Hparams.max_wav_value hparams)
        (Hparams.sampling_rate hparams)
        (Hparams.load_mel_from_disk hparams) stft, g).

Definition get_id (self : instance F) (audiopath : string)
  : result (pyval F) :=
  embed_utterance rt audiopath.

Definition get_mel (self : instance F) (filename : string)
  : result (tensor2 F) :=
  if negb (load_mel_from_disk self) then
    '(audio, sampling_rate) ← load_wav_to_torch rt filename;
    if bool_decide (sampling_rate ≠ Layers.sampling_rate (stft self)) then
      msg ← format "{} {} SR doesn't match target {} SR"
              [pretty sampling_rate;
               pretty (Layers.sampling_rate (stft self))];
      Raise (ValueError msg)
    else
      let audio_norm :=
        (λ x, true_divide rt x (max_wav_value self)) <$> audio in
      mel_spectrogram rt (stft self) audio_norm
  else
    melspec ← np_load rt filename;
    _ ← py_assert (debug rt)
          (Ok (bool_decide (Z.of_nat (size0 melspec)
                            = Layers.n_mel_channels (stft self))))
          (format "Mel dimension mismatch: given {}, expected {}"
             [pretty (Z.of_nat (size0 melspec));
              pretty (Layers.n_mel_channels (stft self))]);
    Ok melspec.

(** The body of [for frame in PPG_temp]: the loop variable is rebound to
    the extended copy. *)
Definition get_ppg_step (speaker_embedding : pyval F)
    (locals : get_ppg_locals F) (k : nat) : get_ppg_locals F :=
  let frame := row (PPG_temp locals) k in
  let frame := np_append frame speaker_embedding in
  Build_get_ppg_locals (PPG_temp locals) (Some frame).

Definition get_ppg (self : instance F) (PPG : string)
    (speaker_embedding : pyval F) : result (tensor2 F) :=
  _ ← py_assert (debug rt)
        (Ok (py_eq (OType (type_of speaker_embedding)) (OStr "np.ndarray")))
        (Ok "speaker_embedding的数据类型错误");
  PPG_temp ← np_load rt PPG;
  let locals :=
    foldl (get_ppg_step speaker_embedding)
      (Build_get_ppg_locals PPG_temp None) (seq 0 (size0 PPG_temp)) in
  Ok (PPG_MelLoader.PPG_temp locals).

Definition get_mel_PPG_pair (self : instance F)
    (audiopath_and_PPG : list string) : result (tensor2 F * tensor2 F) :=
  audiopath ← getitem audiopath_and_PPG 0;
  PPG ← getitem audiopath_and_PPG 1;
  speaker_embedding ← get_id self audiopath;
  PPG ← get_ppg self PPG speaker_embedding;
  mel ← get_mel self audiopath;
  Ok (PPG, mel).

(** Calling what a lookup on [self] produced with one manifest entry.
    [get_mel_PPG_pair] is the only member of the class that takes one. *)
Definition call (self : instance F) (callee : attribute method)
    (arg : list string) : result (tensor2 F * tensor2 F) :=
  match callee with
  | Method def_get_mel_PPG_pair => get_mel_PPG_pair self arg
  | _ => Raise TypeError
  end.

(** [return self.get_mel_PPG_id_pair(self.audiopaths_and_PPG[index])]:
    the callee is looked up before the argument is evaluated. *)
Definition __getitem__ (self : instance F) (index : Z)
  : result (tensor2 F * tensor2 F) :=
  callee ← getattr instance_dict class_dict Dataset_dict
              "get_mel_PPG_id_pair";
  arg ← getitem (audiopaths_and_PPG self) index;
  call self callee arg.

Definition __len__ (self : instance F) : nat :=
  length (audiopaths_and_PPG self).
End class.
End PPG_MelLoader.

(** ** class TextMelLoader *)
Module TextMelLoader.

Inductive method : Type :=
| def___init__
| def_get_mel_text_pair
| def_get_mel
| def_get_text
| def___getitem__
| def___len__.

Definition class_dict : gmap string method :=
  list_to_map
    [("__init__", def___init__);
     ("get_mel_text_pair", def_get_mel_text_pair);
     ("get_mel", def_get_mel);
     ("get_text", def_get_text);
     ("__getitem__", def___getitem__);
     ("__len__", def___len__)].

Definition instance_dict : list string :=
  ["audiopaths_and_text"; "text_cleaners"; "max_wav_value"; "sampling_rate";
   "load_mel_from_disk"; "stft"].

Record instance (F : Type) : Type := Build_instance {
  audiopaths_and_text : list (list string);
  text_cleaners : list string;
  max_wav_value : F;
  sampling_rate : Z;
  load_mel_from_disk : bool;
  stft : Layers.TacotronSTFT F
}.
Arguments Build_instance {F} _ _ _ _ _ _.
Arguments audiopaths_and_text {F} _.
Arguments text_cleaners {F} _.
Arguments max_wav_value {F} _.
Arguments sampling_rate {F} _.
Arguments load_mel_from_disk {F} _.
Arguments stft {F} _.

Section class.
Context {F : Type} {state : Type}.
Variable rt : runtime F.
Variable seed : Z → state.
Variable randbelow : nat → state → nat * state.

Definition __init__ (audiopaths_and_text : string)
    (hparams : Hparams.hparams F) (g : state)
  : result (instance F * state) :=
  entries ← load_filepaths_and_text rt audiopaths_and_text;
  let stft :=
    Layers.Build_TacotronSTFT
      (Hparams.filter_length hparams) (Hparams.hop_length hparams)
      (Hparams.win_length hparams) (Hparams.n_mel_channels hparams)
      (Hparams.sampling_rate hparams) (Hparams.mel_fmin hparams)
      (Hparams.mel_fmax hparams) in
  let g := seed (Hparams.seed hparams) in
  '(entries, g) ← Random.shuffle randbelow entries g;
  Ok (Build_instance entries (Hparams.text_cleaners hparams)
        (Hparams.max_wav_value hparams) (Hparams.sampling_rate hparams)
        (Hparams.load_mel_from_disk hparams) stft, g).

Definition get_mel (self : instance F) (filename : string)
  : result (tensor2 F) :=
  if negb (load_mel_from_disk self) then
    '(audio, sampling_rate) ← load_wav_to_torch rt filename;
    if bool_decide (sampling_rate ≠ Layers.sampling_rate (stft self)) then
      msg ← format "{} {} SR doesn't match target {} SR"
              [pretty sampling_rate;
               pretty (Layers.sampling_rate (stft self))];
      Raise (ValueError msg)
    else
      let audio_norm :=
        (λ x, true_divide rt x (max_wav_value self)) <$> audio in
      mel_spectrogram rt (stft self) audio_norm
  else
    melspec ← np_load rt filename;
    _ ← py_assert (debug rt)
          (Ok (bool_decide (Z.of_nat (size0 melspec)
                            = Layers.n_mel_channels (stft self))))
          (format "Mel dimension mismatch: given {}, expected {}"
             [pretty (Z.of_nat (size0 melspec));
              pretty (Layers.n_mel_channels (stft self))]);
    Ok melspec.

Definition get_text (self : instance F) (text : string)
  : result (list Z) :=
  text_to_sequence rt text (text_cleaners self).

Definition get_mel_text_pair (self : instance F)
    (audiopath_and_text : list string) : result (list Z * tensor2 F) :=
  audiopath ← getitem audiopath_and_text 0;
  text ← getitem audiopath_and_text 1;
  text ← get_text self text;
  mel ← get_mel self audiopath;
  Ok (text, mel).

Definition call (self : instance F) (callee : attribute method)
    (arg : list string) : result (list Z * tensor2 F) :=
  match callee with
  | Method def_get_mel_text_pair => get_mel_text_pair self arg
  | _ => Raise TypeError
  end.

Definition __getitem__ (self : instance F) (index : Z)
  : result (list Z * tensor2 F) :=
  callee ← getattr instance_dict class_dict Dataset_dict
              "get_mel_text_pair";
  arg ← getitem (audiopaths_and_text self) index;
  call self callee arg.

Definition __len__ (self : instance F) : nat :=
  length (audiopaths_and_text self).
End class.
End TextMelLoader.

(** ** class TextMelCollate *)
Module TextMelCollate.

(** The five tensors [__call__] returns. *)
Record output (F : Type) : Type := Build_output {
  text_padded : tensor2 Z;
  input_lengths : list Z;
  mel_padded : tensor3 F;
  gate_padded : tensor2 F;
  output_lengths : list Z
}.
Arguments Build_output {F} _ _ _ _ _.
Arguments text_padded {F} _.
Arguments input_lengths {F} _.
Arguments mel_padded {F} _.
Arguments gate_padded {F} _.
Arguments output_lengths {F} _.

Section class.
Context {F : Type}.
(** The floats [0.] and [1.]. *)
Variables zero one : F.
(** Storing an entry into a [FloatTensor] converts it to [float32]: a
    [float64] entry is rounded, a [float32] entry is kept. *)
Variable to_float32 : F → F.
(** [__debug__] *)
Variable debug : bool.
(** [torch.sort(_, dim=0, descending=True)] on a one-dimensional
    [LongTensor]: the sorted values and, for each, its index in the
    argument. *)
Variable torch_sort : list Z → list Z * list nat.
(** What a freshly allocated [LongTensor] holds before it is written. *)
Variable uninitialized : nat → Z.

(** [for i in range(n)] threading the tensors the body updates. *)
Fixpoint for_range {St : Type} (body : St → nat → result St)
    (i n : nat) (s : St) : result St :=
  match n with
  | 0 => Ok s
  | S n' => s' ← body s i; for_range body (S i) n' s'
  end.

(** [text_padded[i, :text.size(0)] = text] *)
Definition assign_text (text_padded : tensor2 Z) (i : nat) (text : list Z)
  : result (tensor2 Z) :=
  if decide (i < size0 text_padded)%nat then
    let stop := length text `min` size1 text_padded in
    if expandable (length text) stop then
      Ok (Tensor2 (size0 text_padded) (size1 text_padded)
            (λ r c,
               if decide (r = i ∧ (c < stop)%nat)
               then text !!! source_index (length text) c
               else item2 text_padded r c))
    else Raise RuntimeError
  else Raise IndexError.

(** [mel_padded[i, :, :mel.size(1)] = mel] *)
Definition assign_mel (mel_padded : tensor3 F) (i : nat) (mel : tensor2 F)
  : result (tensor3 F) :=
  if decide (i < dim0 mel_padded)%nat then
    let stop := size1 mel `min` dim2 mel_padded in
    if expandable (size0 mel) (dim1 mel_padded)
       && expandable (size1 mel) stop then
      Ok (Tensor3 (dim0 mel_padded) (dim1 mel_padded) (dim2 mel_padded)
            (λ r c t,
               if decide (r = i ∧ (t < stop)%nat)
               then to_float32
                      (item2 mel (source_index (size0 mel) c)
                         (source_index (size1 mel) t))
               else item3 mel_padded r c t))
    else Raise RuntimeError
  else Raise IndexError.

(** Where a slice [a:] of an axis of extent [n] begins. *)
Definition slice_start (a : Z) (n : nat) : nat :=
  if decide (a < 0)%Z then Z.to_nat (a + Z.of_nat n)
  else Z.to_nat a `min` n.

(** [gate_padded[i, start:] = 1] *)
Definition assign_gate (gate_padded : tensor2 F) (i : nat) (start : Z)
  : result (tensor2 F) :=
  if decide (i < size0 gate_padded)%nat then
    let first := slice_start start (size1 gate_padded) in
    Ok (Tensor2 (size0 gate_padded) (size1 gate_padded)
          (λ r t,
             if decide (r = i ∧ (first ≤ t)%nat) then one
             else item2 gate_padded r t))
  else Raise IndexError.

(** [output_lengths[i] = n] *)
Definition assign_length (output_lengths : list Z) (i : nat) (n : Z)
  : result (list Z) :=
  if decide (i < length output_lengths)%nat then Ok (<[i:=n]> output_lengths)
  else Raise IndexError.

(** [max(l)] on a list of integers *)
Definition py_max (l : list Z) : result Z :=
  match l with
  | [] => Raise (ValueError "max() arg is an empty sequence")
  | x :: l' => Ok (foldl Z.max x l')
  end.

(** [a % b] on integers *)
Definition py_mod (a b : Z) : result Z :=
  if decide (b = 0)%Z then Raise ZeroDivisionError else Ok (a `mod` b)%Z.

(** A tensor constructor given sizes: a negative size is refused. *)
Definition tensor_size (n : Z) : result nat :=
  if decide (n < 0)%Z then Raise RuntimeError else Ok (Z.to_nat n).

(** [batch] is a list of (text, mel) pairs: a sequence of symbol
    identifiers and a channels × frames spectrogram. *)
Abbreviation example := (list Z * tensor2 F)%type.

Definition __call__ (n_frames_per_step : Z) (batch : list example)
  : result (output F) :=
  let '(input_lengths, ids_sorted_decreasing) :=
    torch_sort ((λ x, Z.of_nat (length x.1)) <$> batch) in
  max_input_len ← getitem input_lengths 0;
  width ← tensor_size max_input_len;
  let text_padded := zeros2 0%Z (length batch) width in
  text_padded ←
    for_range
      (λ text_padded i,
         id ← getitem ids_sorted_decreasing (Z.of_nat i);
         x ← getitem batch (Z.of_nat id);
         let text := x.1 in
         assign_text text_padded i text)
      0 (length ids_sorted_decreasing) text_padded;
  x0 ← getitem batch 0;
  let num_mels := size0 x0.2 in
  max_target_len ← py_max ((λ x, Z.of_nat (size1 x.2)) <$> batch);
  r ← py_mod max_target_len n_frames_per_step;
  max_target_len ←
    (if decide (r ≠ 0)%Z then
       let max_target_len :=
         (max_target_len + (n_frames_per_step - r))%Z in
       _ ← py_assert debug
             (r' ← py_mod max_target_len n_frames_per_step;
              Ok (bool_decide (r' = 0)%Z))
             (Ok "");
       Ok max_target_len
     else Ok max_target_len);
  frames ← tensor_size max_target_len;
  let mel_padded := zeros3 zero (length batch) num_mels frames in
  let gate_padded := zeros2 zero (length batch) frames in
  let output_lengths := uninitialized <$> seq 0 (length batch) in
  '(mel_padded, gate_padded, output_lengths) ←
    for_range
      (λ '(mel_padded, gate_padded, output_lengths) i,
         id ← getitem ids_sorted_decreasing (Z.of_nat i);
         x ← getitem batch (Z.of_nat id);
         let mel := x.2 in
         mel_padded ← assign_mel mel_padded i mel;
         gate_padded ← assign_gate gate_padded i (Z.of_nat (size1 mel) - 1);
         output_lengths ←
           assign_length output_lengths i (Z.of_nat (size1 mel));
         Ok (mel_padded, gate_padded, output_lengths))
      0 (length ids_sorted_decreasing)
      (mel_padded, gate_padded, output_lengths);
  Ok (Build_output text_padded input_lengths mel_padded gate_padded
        output_lengths).
End class.
End TextMelCollate.

(** ** What [torch.sort] promises, and two sorts that keep the promise

    Without [stable=True] the library documents the result of a descending
    sort as: the values in non-increasing order, and for each the position
    it came from, every position once.  The order among equal values is
    left to the implementation. *)
Module Sort.

Definition torch_sort_spec (torch_sort : list Z → list Z * list nat) : Prop :=
  ∀ l : list Z,
    (torch_sort l).2 ≡ₚ seq 0 (length l)
    ∧ (torch_sort l).1 = (λ i, l !!! i) <$> (torch_sort l).2
    ∧ StronglySorted Z.ge (torch_sort l).1.

(** A stable sort returns equal values in the order of their positions. *)
Definition stable (torch_sort : list Z → list Z * list nat) : Prop :=
  ∀ (l : list Z) (i j a b : nat),
    i < j →
    (torch_sort l).2 !! i = Some a → (torch_sort l).2 !! j = Some b →
    l !!! a = l !!! b → a < b.

(** Two orders on (value, position) pairs. *)
Definition by_value (p q : Z * nat) : Prop := (p.1 >= q.1)%Z.
Definition by_value_then_position (p q : Z * nat) : Prop :=
  (p.1 > q.1)%Z ∨ (p.1 = q.1 ∧ p.2 ≤ q.2).

(** Insertion sort of (value, position) pairs by a comparison [before]. *)
Section insertion.
Variable before : Z * nat → Z * nat → bool.

Fixpoint insert (p : Z * nat) (l : list (Z * nat)) : list (Z * nat) :=
  match l with
  | [] => [p]
  | q :: l' => if before p q then p :: l else q :: insert p l'
  end.

Definition sort_pairs (l : list (Z * nat)) : list (Z * nat) :=
  foldr insert [] l.

Definition sort_with (l : list Z) : list Z * list nat :=
  let sorted := sort_pairs (zip l (seq 0 (length l))) in
  (sorted.*1, sorted.*2).
End insertion.

(** Larger values first; among equal values the earlier position first. *)
Definition stable_before (p q : Z * nat) : bool :=
  bool_decide (p.1 > q.1)%Z || (bool_decide (p.1 = q.1) && bool_decide (p.2 ≤ q.2)%nat).

(** Larger values first; among equal values the later position first. *)
Definition latest_before (p q : Z * nat) : bool :=
  bool_decide (p.1 > q.1)%Z || (bool_decide (p.1 = q.1) && bool_decide (q.2 ≤ p.2)%nat).

Definition stable_sort : list Z → list Z * list nat := sort_with stable_before.

(** A sort that keeps the promise without being stable: among up to sixteen
    values the equal ones come in the order of their positions, among more
    than sixteen the later position comes first. *)
Definition unstable_sort (l : list Z) : list Z * list nat :=
  if decide (length l ≤ 16)%nat then sort_with stable_before l
  else sort_with latest_before l.

End Sort.

(** ** Small concrete worlds on which the statements are exercised *)
Module Fixture.

(** A linear congruential generator standing in for the Mersenne
    Twister. *)
Definition lcg_seed (a : Z) : Z := a.
Definition lcg_randbelow (n : nat) (s : Z) : nat * Z :=
  let s' := ((1103515245 * s + 12345) `mod` 2147483648)%Z in
  (Z.to_nat (s' `mod` Z.of_nat n), s').

(** Integer-valued samples stand in for floats.  [to_float32] rounds an
    integer to the nearest one with a significand of 24 bits, ties to the
    even one, as the conversion of a [float64] holding it does for
    magnitudes in the range of [float32]; the samples stay far below
    that bound. *)
Definition to_float32 (z : Z) : Z :=
  let a := Z.abs z in
  if (a <? 2 ^ 24)%Z then z
  else
    let ulp := (2 ^ (Z.log2 a - 23))%Z in
    let q := (a `div` ulp)%Z in
    let r := (a `mod` ulp)%Z in
    let q' :=
      if (2 * r <? ulp)%Z then q
      else if (ulp <? 2 * r)%Z then (q + 1)%Z
      else if Z.even q then q else (q + 1)%Z in
    (Z.sgn z * q' * ulp)%Z.

Definition mel_2x3 : tensor2 Z := Tensor2 2 3 (λ c t, (10 * Z.of_nat c + Z.of_nat t)%Z).
Definition mel_2x5 : tensor2 Z := Tensor2 2 5 (λ c t, (100 + 10 * Z.of_nat c + Z.of_nat t)%Z).
Definition mel_3x4 : tensor2 Z := Tensor2 3 4 (λ c t, (Z.of_nat c - Z.of_nat t)%Z).
Definition ppg_4x2 : tensor2 Z := Tensor2 4 2 (λ k p, (Z.of_nat k + Z.of_nat p)%Z).

Definition files (name : string) : result (tensor2 Z) :=
  if bool_decide (name = "mels/a.npy") then Ok mel_2x3
  else if bool_decide (name = "mels/b.npy") then Ok mel_3x4
  else if bool_decide (name = "PPG/PPG_0.npy") then Ok ppg_4x2
  else Raise OSError.

Definition wavs (name : string) : result (list Z * Z) :=
  if bool_decide (name = "meian/meian_0000.wav") then Ok ([0; 16384; -16384]%Z, 16000%Z)
  else if bool_decide (name = "meian/meian_0001.wav") then Ok ([1; 2; 3]%Z, 22050%Z)
  else Raise OSError.

Definition manifest (name : string) : result (list (list string)) :=
  if bool_decide (name = "filelists/train.txt") then
    Ok [["meian/meian_0000.wav"; "PPG/PPG_0.npy"];
        ["meian/meian_0001.wav"; "PPG/PPG_1.npy"];
        ["meian/meian_0002.wav"; "PPG/PPG_2.npy"];
        ["meian/meian_0003.wav"; "PPG/PPG_3.npy"]]
  else Raise OSError.

Definition world (debug : bool) : runtime Z :=
  Build_runtime Z debug wavs files Z.div
    (λ _ audio, Ok (Tensor2 2 (length audio) (λ c t, (audio !!! t)%Z)))
    (λ _, Ok (VNdarray [7; 8; 9]%Z))
    (λ text _, Ok (Z.of_nat <$> seq 0 (String.length text)))
    manifest manifest.

Definition hparams (from_disk : bool) : Hparams.hparams Z :=
  Hparams.Build_hparams 32768%Z 22050%Z from_disk 1024%Z 256%Z 1024%Z 2%Z
    0%Z 8000%Z ["english_cleaners"] 1234%Z.

Definition stft : Layers.TacotronSTFT Z :=
  Layers.Build_TacotronSTFT 1024%Z 256%Z 1024%Z 2%Z 22050%Z 0%Z 8000%Z.

Definition ppg_loader (from_disk : bool) : PPG_MelLoader.instance Z :=
  PPG_MelLoader.Build_instance
    [["meian/meian_0000.wav"; "PPG/PPG_0.npy"]] 32768%Z 22050%Z from_disk stft.

Definition text_loader (from_disk : bool) : TextMelLoader.instance Z :=
  TextMelLoader.Build_instance
    [["meian/meian_0000.wav"; "hello"]] ["english_cleaners"] 32768%Z 22050%Z
    from_disk stft.

(** Three examples with input lengths 3, 7, 5 and target lengths 3, 5, 3. *)
Definition batch_3_7_5 : list (list Z * tensor2 Z) :=
  [([1; 2; 3]%Z, mel_2x3);
   ([4; 5; 6; 7; 8; 9; 10]%Z, mel_2x5);
   ([11; 12; 13; 14; 15]%Z, mel_2x3)].

(** Seventeen examples of input length 2; example [k] has the symbols
    [k + 1] and [k + 2]. *)
Definition batch_17_ties : list (list Z * tensor2 Z) :=
  (λ k, ([Z.of_nat k + 1; Z.of_nat k + 2]%Z, mel_2x3)) <$> seq 0 17.

Definition collate sort (n_frames_per_step : Z) batch
  : result (TextMelCollate.output Z) :=
  TextMelCollate.__call__ 0%Z 1%Z to_float32 true sort (λ _, (-1)%Z)
    n_frames_per_step batch.

End Fixture.

(** ** Reading a collated batch

    The vocabulary in which the collator's result is described: which
    example a row of the five returned arrays was built from, and in what
    order the examples were taken. *)
Module Batch.
Section reading.
Context {F : Type}.
Variables zero one : F.
Variable to_float32 : F → F.

Abbreviation example := (list Z * tensor2 F)%type.

(** What [__call__] hands to [torch.sort]. *)
Definition input_lengths_of (batch : list example) : list Z :=
  (λ x, Z.of_nat (length x.1)) <$> batch.

(** The largest input length and the largest target length. *)
Definition max_input_len (batch : list example) : nat :=
  max_list ((λ x, length x.1) <$> batch).
Definition max_target_len (batch : list example) : nat :=
  max_list ((λ x, size1 x.2) <$> batch).

(** Row [i] of every returned array is built from example [x]: its input
    length, its symbols followed by zeros, its spectrogram converted to
    [float32] and followed by zero frames, its stop flags, and its target
    length. *)
Definition row_holds (out : TextMelCollate.output F) (i : nat)
    (x : example) : Prop :=
  TextMelCollate.input_lengths out !! i = Some (Z.of_nat (length x.1))
  ∧ (∀ c, c < size1 (TextMelCollate.text_padded out) →
       item2 (TextMelCollate.text_padded out) i c
       = if decide (c < length x.1) then x.1 !!! c else 0%Z)
  ∧ (∀ c t, c < dim1 (TextMelCollate.mel_padded out) →
       t < dim2 (TextMelCollate.mel_padded out) →
       item3 (TextMelCollate.mel_padded out) i c t
       = if decide (t < size1 x.2) then to_float32 (item2 x.2 c t)
         else zero)
  ∧ (∀ t, t < size1 (TextMelCollate.gate_padded out) →
       item2 (TextMelCollate.gate_padded out) i t
       = if decide (TextMelCollate.slice_start (Z.of_nat (size1 x.2) - 1)
                      (size1 (TextMelCollate.gate_padded out)) ≤ t)
         then one else zero)
  ∧ TextMelCollate.output_lengths out !! i = Some (Z.of_nat (size1 x.2)).

(** Index [i] of every returned array refers to example [ids[i]]. *)
Definition ordered_by (batch : list example) (ids : list nat)
    (out : TextMelCollate.output F) : Prop :=
  ∀ i id x, ids !! i = Some id → batch !! id = Some x → row_holds out i x.

(** [ids] takes the examples by input length, longest first. *)
Definition descending (batch : list example) (ids : list nat) : Prop :=
  ∀ i j a b xa xb, i < j →
    ids !! i = Some a → ids !! j = Some b →
    batch !! a = Some xa → batch !! b = Some xb →
    length xb.1 ≤ length xa.1.

(** Examples of equal input length keep their order in the batch. *)
Definition ties_in_original_order (batch : list example) (ids : list nat)
  : Prop :=
  ∀ i j a b xa xb, i < j →
    ids !! i = Some a → ids !! j = Some b →
    batch !! a = Some xa → batch !! b = Some xb →
    length xa.1 = length xb.1 → a < b.

(** All examples have the same number of mel channels. *)
Definition consistent_channels (batch : list example) : Prop :=
  ∀ x y, x ∈ batch → y ∈ batch → size0 x.2 = size0 y.2.
End reading.

(** The state of the two loops of [__call__] after [k] passes. *)
Section loops.
Context {F : Type}.
Variables zero one : F.
Variable to_float32 : F → F.
Variable torch_sort : list Z → list Z * list nat.
Variable batch : list (list Z * tensor2 F).

(** The two results of the call to [torch.sort]. *)
Definition sorted_values : list Z := (torch_sort (input_lengths_of batch)).1.
Definition sorted_ids : list nat := (torch_sort (input_lengths_of batch)).2.

(** The example whose data row [r] receives. *)
Definition source (r : nat) : option (list Z * tensor2 F) :=
  sorted_ids !! r ≫= λ id, batch !! id.

(** Entries of the padded inputs once rows below [k] are written. *)
Definition text_entry (k r c : nat) : Z :=
  if decide (r < k) then
    match source r with
    | Some x => if decide (c < length x.1) then x.1 !!! c else 0%Z
    | None => 0%Z
    end
  else 0%Z.

Definition text_invariant (k : nat) (tp : tensor2 Z) : Prop :=
  size0 tp = length batch
  ∧ size1 tp = max_input_len batch
  ∧ ∀ r c, item2 tp r c = text_entry k r c.

(** Entries of the padded targets and of the stop flags once rows below
    [k] are written. *)
Definition mel_entry (k r c t : nat) : F :=
  if decide (r < k) then
    match source r with
    | Some x =>
        if decide (t < size1 x.2) then to_float32 (item2 x.2 c t) else zero
    | None => zero
    end
  else zero.

Definition gate_entry (T k r t : nat) : F :=
  if decide (r < k) then
    match source r with
    | Some x =>
        if decide (TextMelCollate.slice_start (Z.of_nat (size1 x.2) - 1) T
                   ≤ t)
        then one else zero
    | None => zero
    end
  else zero.

Definition mel_invariant (C T k : nat) (s : tensor3 F * tensor2 F * list Z)
  : Prop :=
  dim0 s.1.1 = length batch ∧ dim1 s.1.1 = C ∧ dim2 s.1.1 = T
  ∧ size0 s.1.2 = length batch ∧ size1 s.1.2 = T
  ∧ length s.2 = length batch
  ∧ (∀ r c t, c < C → item3 s.1.1 r c t = mel_entry k r c t)
  ∧ (∀ r t, item2 s.1.2 r t = gate_entry T k r t)
  ∧ (∀ r, r < k →
       s.2 !! r = (λ x : list Z * tensor2 F, Z.of_nat (size1 x.2))
                    <$> source r).
End loops.
End Batch.

(** ** Further concrete worlds *)
Module Samples.

(** The manifest of [Fixture.manifest] with only the audio path kept on
    each line. *)
Definition manifest_audio (name : string) : result (list (list string)) :=
  (λ entries : list (list string), take 1 <$> entries)
    <$> Fixture.manifest name.

Definition world_audio : runtime Z :=
  Build_runtime Z true Fixture.wavs Fixture.files Z.div
    (λ _ audio, Ok (Tensor2 2 (length audio) (λ c t, (audio !!! t)%Z)))
    (λ _, Ok (VNdarray [7; 8; 9]%Z))
    (λ text _, Ok (Z.of_nat <$> seq 0 (String.length text)))
    manifest_audio manifest_audio.

(** A text loader over precomputed spectrograms, and the two examples it
    yields. *)
Definition disk_loader : TextMelLoader.instance Z :=
  TextMelLoader.Build_instance
    [["mels/a.npy"; "hello"]; ["mels/a.npy"; "hi"]] ["english_cleaners"]
    32768%Z 22050%Z true Fixture.stft.

Definition disk_batch : list (list Z * tensor2 Z) :=
  [([0; 1; 2; 3; 4]%Z, Fixture.mel_2x3); ([0; 1]%Z, Fixture.mel_2x3)].

(** The manifest of [Fixture.manifest] cut down to its first line. *)
Definition manifest_single (name : string) : result (list (list string)) :=
  take 1 <$> Fixture.manifest name.

Definition world_single : runtime Z :=
  Build_runtime Z true Fixture.wavs Fixture.files Z.div
    (λ _ audio, Ok (Tensor2 2 (length audio) (λ c t, (audio !!! t)%Z)))
    (λ _, Ok (VNdarray [7; 8; 9]%Z))
    (λ text _, Ok (Z.of_nat <$> seq 0 (String.length text)))
    manifest_single manifest_single.

(** Spectrograms with no frame and with three channels. *)
Definition mel_2x0 : tensor2 Z := Tensor2 2 0 (λ _ _, 0%Z).
Definition mel_3x3 : tensor2 Z := Tensor2 3 3 (λ c t, (Z.of_nat c * Z.of_nat t)%Z).

(** A batch whose second example has no target frame. *)
Definition batch_no_frame : list (list Z * tensor2 Z) :=
  [([1; 2; 3]%Z, Fixture.mel_2x3); ([4; 5]%Z, mel_2x0)].

(** A batch whose second example has three channels where the first has
    two. *)
Definition batch_mixed_channels : list (list Z * tensor2 Z) :=
  [([1; 2; 3]%Z, Fixture.mel_2x3); ([4; 5]%Z, mel_3x3)].

(** Seventeen examples of input lengths 1, 2, ..., 17. *)
Definition batch_17_lengths : list (list Z * tensor2 Z) :=
  (λ k, (replicate (S k) 7%Z, Fixture.mel_2x3)) <$> seq 0 17.

(** A spectrogram as [np.load] gives it in [float64], with entries that
    [float32] cannot hold, and a batch made of it. *)
Definition mel_float64 : tensor2 Z :=
  Tensor2 2 3 (λ c t, (16777217 + 3 * Z.of_nat c + Z.of_nat t)%Z).

Definition batch_float64 : list (list Z * tensor2 Z) :=
  [([1; 2; 3]%Z, mel_float64)].

End Samples.

(** * Properties *)

(** ** Attribute lookup and item access *)

(** C1: [PPG_MelLoader.__getitem__] raises [AttributeError] for every
    index, in range or not: it calls [get_mel_PPG_id_pair], a name bound
    neither on the instance, nor in the class body, which binds
    [get_mel_PPG_pair], nor in the base class.  No pair is ever
    returned. *)
Theorem PPG_getitem_raises_AttributeError {F : Type} (rt : runtime F)
    (self : PPG_MelLoader.instance F) (index : Z) :
  PPG_MelLoader.class_dict !! "get_mel_PPG_pair"
    = Some PPG_MelLoader.def_get_mel_PPG_pair
  ∧ PPG_MelLoader.class_dict !! "get_mel_PPG_id_pair" = None
  ∧ PPG_MelLoader.__getitem__ rt self index
    = Raise (AttributeError "get_mel_PPG_id_pair").
Proof.
  split; [|split].
  - vm_compute. reflexivity.
  - vm_compute. reflexivity.
  - unfold PPG_MelLoader.__getitem__.
    assert (Hget : getattr PPG_MelLoader.instance_dict
                     PPG_MelLoader.class_dict Dataset_dict
                     "get_mel_PPG_id_pair"
                   = (Raise (AttributeError "get_mel_PPG_id_pair")
                      : result (attribute PPG_MelLoader.method))).
    { vm_compute. reflexivity. }
    rewrite Hget. reflexivity.
Qed.

(** The text loader's lookup of [get_mel_text_pair] succeeds, so its item
    access reaches the method. *)
Lemma Text_getitem_reaches_method {F : Type} (rt : runtime F)
    (self : TextMelLoader.instance F) (index : Z) :
  TextMelLoader.__getitem__ rt self index
  = (arg ← getitem (TextMelLoader.audiopaths_and_text self) index;
     TextMelLoader.get_mel_text_pair rt self arg).
Proof.
  unfold TextMelLoader.__getitem__.
  assert (Hget : getattr TextMelLoader.instance_dict
                   TextMelLoader.class_dict Dataset_dict "get_mel_text_pair"
                 = Ok (Method TextMelLoader.def_get_mel_text_pair)).
  { vm_compute. reflexivity. }
  rewrite Hget. reflexivity.
Qed.

(** ** Spectrogram acquisition *)

(** The message of the sample-rate check has three replacement fields and
    is given two arguments. *)
Lemma format_rate_message (a b : string) :
  format "{} {} SR doesn't match target {} SR" [a; b] = Raise IndexError.
Proof. reflexivity. Qed.

Lemma format_mel_message (a b : string) :
  ∃ msg, format "Mel dimension mismatch: given {}, expected {}" [a; b]
         = Ok msg.
Proof. eexists. reflexivity. Qed.

(** C5: when spectrograms are computed from waveforms and the file's
    sample rate differs from the configured one, [get_mel] of either
    loader returns no tensor and does no resampling, but what it raises is
    [IndexError], from formatting the message, not the [ValueError] the
    [raise] statement names. *)
Theorem get_mel_rate_mismatch_raises_IndexError {F : Type} (rt : runtime F)
    (ppg_self : PPG_MelLoader.instance F)
    (text_self : TextMelLoader.instance F)
    (filename : string) (audio : list F) (rate : Z) :
  load_wav_to_torch rt filename = Ok (audio, rate) →
  (PPG_MelLoader.load_mel_from_disk ppg_self = false →
   rate ≠ Layers.sampling_rate (PPG_MelLoader.stft ppg_self) →
   PPG_MelLoader.get_mel rt ppg_self filename = Raise IndexError)
  ∧ (TextMelLoader.load_mel_from_disk text_self = false →
     rate ≠ Layers.sampling_rate (TextMelLoader.stft text_self) →
     TextMelLoader.get_mel rt text_self filename = Raise IndexError).
Proof.
  intros Hload. split; intros Hdisk Hne.
  - unfold PPG_MelLoader.get_mel. rewrite Hdisk, Hload. simpl.
    rewrite bool_decide_eq_true_2 by done. reflexivity.
  - unfold TextMelLoader.get_mel. rewrite Hdisk, Hload. simpl.
    rewrite bool_decide_eq_true_2 by done. reflexivity.
Qed.

Lemma get_mel_rate_mismatch_witness :
  TextMelLoader.get_mel (Fixture.world true) (Fixture.text_loader false)
    "meian/meian_0000.wav" = Raise IndexError.
Proof.
  apply (get_mel_rate_mismatch_raises_IndexError (Fixture.world true)
           (Fixture.ppg_loader false) (Fixture.text_loader false)
           "meian/meian_0000.wav" [0; 16384; -16384]%Z 16000%Z).
  - reflexivity.
  - reflexivity.
  - vm_compute. discriminate.
Defined.

(** With matching rates the waveform path hands the normalised samples to
    the spectrogram transform. *)
Lemma get_mel_rate_match {F : Type} (rt : runtime F)
    (self : TextMelLoader.instance F) (filename : string)
    (audio : list F) :
  TextMelLoader.load_mel_from_disk self = false →
  load_wav_to_torch rt filename
    = Ok (audio, Layers.sampling_rate (TextMelLoader.stft self)) →
  TextMelLoader.get_mel rt self filename
  = mel_spectrogram rt (TextMelLoader.stft self)
      ((λ x, true_divide rt x (TextMelLoader.max_wav_value self)) <$> audio).
Proof.
  intros Hdisk Hload. unfold TextMelLoader.get_mel.
  rewrite Hdisk, Hload. simpl.
  rewrite bool_decide_eq_false_2 by (intros H; by apply H).
  reflexivity.
Qed.

(** C6: when spectrograms are read from storage and assertions are
    executed, [get_mel] of either loader returns the loaded array exactly
    when its first dimension is the configured number of mel channels, and
    raises [AssertionError] otherwise. *)
Theorem get_mel_from_disk_checks_channels {F : Type} (rt : runtime F)
    (ppg_self : PPG_MelLoader.instance F)
    (text_self : TextMelLoader.instance F)
    (filename : string) (melspec : tensor2 F) :
  debug rt = true →
  np_load rt filename = Ok melspec →
  (PPG_MelLoader.load_mel_from_disk ppg_self = true →
   (Z.of_nat (size0 melspec)
      = Layers.n_mel_channels (PPG_MelLoader.stft ppg_self)
    ∧ PPG_MelLoader.get_mel rt ppg_self filename = Ok melspec)
   ∨ (Z.of_nat (size0 melspec)
        ≠ Layers.n_mel_channels (PPG_MelLoader.stft ppg_self)
      ∧ ∃ msg, PPG_MelLoader.get_mel rt ppg_self filename
               = Raise (AssertionError msg)))
  ∧ (TextMelLoader.load_mel_from_disk text_self = true →
     (Z.of_nat (size0 melspec)
        = Layers.n_mel_channels (TextMelLoader.stft text_self)
      ∧ TextMelLoader.get_mel rt text_self filename = Ok melspec)
     ∨ (Z.of_nat (size0 melspec)
          ≠ Layers.n_mel_channels (TextMelLoader.stft text_self)
        ∧ ∃ msg, TextMelLoader.get_mel rt text_self filename
                 = Raise (AssertionError msg))).
Proof.
  intros Hdebug Hload. split; intros Hdisk.
  - unfold PPG_MelLoader.get_mel. rewrite Hdisk, Hload, Hdebug. simpl.
    case_bool_decide as Hc; [left | right]; split; try done.
    eexists. reflexivity.
  - unfold TextMelLoader.get_mel. rewrite Hdisk, Hload, Hdebug. simpl.
    case_bool_decide as Hc; [left | right]; split; try done.
    eexists. reflexivity.
Qed.

Lemma get_mel_from_disk_witness :
  (Z.of_nat (size0 Fixture.mel_3x4)
     = Layers.n_mel_channels (TextMelLoader.stft (Fixture.text_loader true))
   ∧ TextMelLoader.get_mel (Fixture.world true) (Fixture.text_loader true)
       "mels/b.npy" = Ok Fixture.mel_3x4)
  ∨ (Z.of_nat (size0 Fixture.mel_3x4)
       ≠ Layers.n_mel_channels (TextMelLoader.stft (Fixture.text_loader true))
     ∧ ∃ msg, TextMelLoader.get_mel (Fixture.world true)
                (Fixture.text_loader true) "mels/b.npy"
              = Raise (AssertionError msg)).
Proof.
  apply (get_mel_from_disk_checks_channels (Fixture.world true)
           (Fixture.ppg_loader true) (Fixture.text_loader true)
           "mels/b.npy" Fixture.mel_3x4); reflexivity.
Defined.

(** ** The phoneme-probability input *)

(** The comparison guarding [get_ppg] is false whatever the embedding
    is: a type object is compared with a string. *)
Lemma type_never_equals_name {F : Type} (v : pyval F) (name : string) :
  py_eq (OType (type_of v)) (OStr name) = false.
Proof. reflexivity. Qed.

(** C7: with assertions executed, [get_ppg] fails its assertion for every
    speaker embedding, a numpy array included; no file is read. *)
Theorem get_ppg_rejects_every_embedding {F : Type} (rt : runtime F)
    (self : PPG_MelLoader.instance F) (PPG : string)
    (speaker_embedding : pyval F) :
  debug rt = true →
  PPG_MelLoader.get_ppg rt self PPG speaker_embedding
  = Raise (AssertionError "speaker_embedding的数据类型错误").
Proof.
  intros Hdebug. unfold PPG_MelLoader.get_ppg.
  rewrite Hdebug, type_never_equals_name. reflexivity.
Qed.

Lemma get_ppg_rejects_ndarray_witness :
  type_of (VNdarray [7; 8; 9]%Z) = numpy_ndarray
  ∧ PPG_MelLoader.get_ppg (Fixture.world true) (Fixture.ppg_loader true)
      "PPG/PPG_0.npy" (VNdarray [7; 8; 9]%Z)
    = Raise (AssertionError "speaker_embedding的数据类型错误").
Proof.
  split; [reflexivity |].
  apply (get_ppg_rejects_every_embedding (Fixture.world true)
           (Fixture.ppg_loader true) "PPG/PPG_0.npy" (VNdarray [7; 8; 9]%Z)).
  reflexivity.
Defined.

(** The loop of [get_ppg] leaves the loaded array alone: each pass only
    rebinds [frame]. *)
Lemma get_ppg_loop_keeps_array {F : Type} (speaker_embedding : pyval F)
    (ks : list nat) (locals : PPG_MelLoader.get_ppg_locals F) :
  PPG_MelLoader.PPG_temp
    (foldl (PPG_MelLoader.get_ppg_step speaker_embedding) locals ks)
  = PPG_MelLoader.PPG_temp locals.
Proof.
  revert locals. induction ks as [|k ks IH]; intros locals; simpl.
  - reflexivity.
  - rewrite IH. reflexivity.
Qed.

(** After a pass over frame [k] the loop variable holds the frame extended
    by the embedding, of length P + D for an embedding array of length
    D. *)
Lemma get_ppg_step_frame {F : Type} (v : list F)
    (locals : PPG_MelLoader.get_ppg_locals F) (k : nat) :
  PPG_MelLoader.frame
    (PPG_MelLoader.get_ppg_step (VNdarray v) locals k)
  = Some (row (PPG_MelLoader.PPG_temp locals) k ++ v)
  ∧ length (row (PPG_MelLoader.PPG_temp locals) k ++ v)
    = (size1 (PPG_MelLoader.PPG_temp locals) + length v)%nat.
Proof.
  split; [reflexivity |].
  unfold row. rewrite length_app, length_fmap, length_seq. reflexivity.
Qed.

(** C8: whenever [get_ppg] returns, what it returns is the array loaded
    from the PPG file, entries and shape (frames × P) unchanged; the
    extended frames are dropped. *)
Theorem get_ppg_returns_loaded_array {F : Type} (rt : runtime F)
    (self : PPG_MelLoader.instance F) (PPG : string)
    (speaker_embedding : pyval F) (returned : tensor2 F) :
  PPG_MelLoader.get_ppg rt self PPG speaker_embedding = Ok returned →
  np_load rt PPG = Ok returned.
Proof.
  unfold PPG_MelLoader.get_ppg. intros Hret.
  destruct (py_assert _ _ _) as [[]|e]; simpl in Hret; [|discriminate].
  destruct (np_load rt PPG) as [PPG_temp|e]; simpl in Hret; [|discriminate].
  rewrite get_ppg_loop_keeps_array in Hret. exact Hret.
Qed.

Lemma get_ppg_returns_loaded_array_witness :
  PPG_MelLoader.get_ppg (Fixture.world false) (Fixture.ppg_loader true)
    "PPG/PPG_0.npy" (VNdarray [7; 8; 9]%Z) = Ok Fixture.ppg_4x2
  ∧ np_load (Fixture.world false) "PPG/PPG_0.npy" = Ok Fixture.ppg_4x2.
Proof.
  split; [reflexivity |].
  apply (get_ppg_returns_loaded_array (Fixture.world false)
           (Fixture.ppg_loader true) "PPG/PPG_0.npy" (VNdarray [7; 8; 9]%Z)
           Fixture.ppg_4x2).
  reflexivity.
Defined.

(** ** The construction-time shuffle *)
Section shuffle_facts.
Context {state A : Type}.
Variable randbelow : nat → state → nat * state.
Hypothesis randbelow_range : Random.randbelow_spec randbelow.

Lemma insert_later_Permutation (l : list A) (j : nat) (a b : A) :
  l !! j = Some b → b :: <[j:=a]> l ≡ₚ a :: l.
Proof.
  revert j. induction l as [|h l IH]; intros [|j] Hj; simplify_eq/=.
  - apply perm_swap.
  - rewrite (perm_swap h b), (IH j Hj). apply perm_swap.
Qed.

Lemma exchange_lt_Permutation (l : list A) (i j : nat) (a b : A) :
  i < j → l !! i = Some a → l !! j = Some b →
  <[j:=a]> (<[i:=b]> l) ≡ₚ l.
Proof.
  revert i j. induction l as [|h l IH]; intros [|i] [|j] Hlt Hi Hj;
    simplify_eq/=; try lia.
  - by apply insert_later_Permutation.
  - f_equiv. apply (IH i j); [lia | done | done].
Qed.

Lemma swap_Permutation (x : list A) (i j : nat) :
  i < length x → j < length x →
  ∃ x', Random.swap x i j = Ok x' ∧ x' ≡ₚ x.
Proof.
  intros Hi Hj. unfold Random.swap.
  destruct (lookup_lt_is_Some_2 x i Hi) as [xi Hxi].
  destruct (lookup_lt_is_Some_2 x j Hj) as [xj Hxj].
  rewrite Hxi, Hxj. eexists; split; [reflexivity |].
  destruct (lt_eq_lt_dec i j) as [[Hlt | ->] | Hgt].
  - by apply exchange_lt_Permutation.
  - simplify_eq. rewrite list_insert_insert_eq, list_insert_id; done.
  - rewrite list_insert_insert_ne by lia.
    by apply exchange_lt_Permutation.
Qed.

Lemma shuffle_from_Permutation (i : nat) (x : list A) (g : state) :
  i < length x ∨ (i = 0 ∧ x = []) →
  ∃ x' g', Random.shuffle_from randbelow i x g = Ok (x', g') ∧ x' ≡ₚ x.
Proof.
  revert x g. induction i as [|i IH]; intros x g Hi; simpl.
  - by exists x, g.
  - destruct Hi as [Hi | [? _]]; [|lia].
    pose proof (randbelow_range (S (S i)) g ltac:(lia)) as Hj.
    destruct (randbelow (S (S i)) g) as [j g1]. simpl in Hj.
    destruct (swap_Permutation x (S i) j) as (x1 & Hswap & Hperm);
      [lia | lia |].
    rewrite Hswap. simpl.
    destruct (IH x1 g1) as (x2 & g2 & Hrec & Hperm2).
    { left. rewrite Hperm. lia. }
    exists x2, g2. split; [done | by rewrite Hperm2].
Qed.

Lemma shuffle_Permutation (x : list A) (g : state) :
  ∃ x' g', Random.shuffle randbelow x g = Ok (x', g') ∧ x' ≡ₚ x.
Proof.
  unfold Random.shuffle. apply shuffle_from_Permutation.
  destruct x as [|a x]; [right; done | left; simpl; lia].
Qed.
End shuffle_facts.

Lemma lcg_randbelow_range : Random.randbelow_spec Fixture.lcg_randbelow.
Proof.
  intros n g Hn. unfold Fixture.lcg_randbelow. simpl.
  pose proof (Z.mod_pos_bound
                ((1103515245 * g + 12345) `mod` 2147483648) (Z.of_nat n)
                ltac:(lia)).
  lia.
Qed.

(** C9: a loader built from a manifest of M entries has length M, whatever
    the seed and whatever state the global generator was in, and holds a
    permutation of the entries: the shuffle drops none and repeats
    none. *)
Theorem loader_length_and_entries {F state : Type} (rt : runtime F)
    (seed : Z → state) (randbelow : nat → state → nat * state)
    (filelist : string) (entries : list (list string))
    (hparams : Hparams.hparams F) (g : state) :
  Random.randbelow_spec randbelow →
  (load_filepaths_and_PPG rt filelist = Ok entries →
   ∃ self g',
     PPG_MelLoader.__init__ rt seed randbelow filelist hparams g
       = Ok (self, g')
     ∧ PPG_MelLoader.__len__ self = length entries
     ∧ PPG_MelLoader.audiopaths_and_PPG self ≡ₚ entries)
  ∧ (load_filepaths_and_text rt filelist = Ok entries →
     ∃ self g',
       TextMelLoader.__init__ rt seed randbelow filelist hparams g
         = Ok (self, g')
       ∧ TextMelLoader.__len__ self = length entries
       ∧ TextMelLoader.audiopaths_and_text self ≡ₚ entries).
Proof.
  intros Hrange. split; intros Hload.
  - unfold PPG_MelLoader.__init__. rewrite Hload. simpl.
    destruct (shuffle_Permutation randbelow Hrange entries
                (seed (Hparams.seed hparams))) as (x & g' & Hsh & Hperm).
    rewrite Hsh. simpl. eexists _, _. split; [reflexivity |].
    unfold PPG_MelLoader.__len__. simpl. by rewrite Hperm.
  - unfold TextMelLoader.__init__. rewrite Hload. simpl.
    destruct (shuffle_Permutation randbelow Hrange entries
                (seed (Hparams.seed hparams))) as (x & g' & Hsh & Hperm).
    rewrite Hsh. simpl. eexists _, _. split; [reflexivity |].
    unfold TextMelLoader.__len__. simpl. by rewrite Hperm.
Qed.

Lemma loader_length_and_entries_witness :
  ∃ self g',
    PPG_MelLoader.__init__ (Fixture.world true) Fixture.lcg_seed
      Fixture.lcg_randbelow "filelists/train.txt" (Fixture.hparams true) 99%Z
    = Ok (self, g')
    ∧ PPG_MelLoader.__len__ self = 4
    ∧ PPG_MelLoader.audiopaths_and_PPG self
      ≡ₚ [["meian/meian_0000.wav"; "PPG/PPG_0.npy"];
          ["meian/meian_0001.wav"; "PPG/PPG_1.npy"];
          ["meian/meian_0002.wav"; "PPG/PPG_2.npy"];
          ["meian/meian_0003.wav"; "PPG/PPG_3.npy"]].
Proof.
  apply (proj1 (loader_length_and_entries (Fixture.world true)
                  Fixture.lcg_seed Fixture.lcg_randbelow "filelists/train.txt"
                  [["meian/meian_0000.wav"; "PPG/PPG_0.npy"];
                   ["meian/meian_0001.wav"; "PPG/PPG_1.npy"];
                   ["meian/meian_0002.wav"; "PPG/PPG_2.npy"];
                   ["meian/meian_0003.wav"; "PPG/PPG_3.npy"]]
                  (Fixture.hparams true) 99%Z lcg_randbelow_range)).
  reflexivity.
Defined.

(** C10: the order a loader holds its entries in is a function of the
    manifest's contents and the configured seed: two constructions that
    agree on both agree on the order, in whatever state each finds the
    global generator and whatever the other options are. *)
Theorem shuffle_determined_by_seed {F state : Type} (rt1 rt2 : runtime F)
    (seed : Z → state) (randbelow : nat → state → nat * state)
    (filelist1 filelist2 : string) (hparams1 hparams2 : Hparams.hparams F)
    (g1 g2 : state) :
  Hparams.seed hparams1 = Hparams.seed hparams2 →
  (load_filepaths_and_PPG rt1 filelist1 = load_filepaths_and_PPG rt2 filelist2 →
   (λ p, PPG_MelLoader.audiopaths_and_PPG p.1)
     <$> PPG_MelLoader.__init__ rt1 seed randbelow filelist1 hparams1 g1
   = (λ p, PPG_MelLoader.audiopaths_and_PPG p.1)
     <$> PPG_MelLoader.__init__ rt2 seed randbelow filelist2 hparams2 g2)
  ∧ (load_filepaths_and_text rt1 filelist1
       = load_filepaths_and_text rt2 filelist2 →
     (λ p, TextMelLoader.audiopaths_and_text p.1)
       <$> TextMelLoader.__init__ rt1 seed randbelow filelist1 hparams1 g1
     = (λ p, TextMelLoader.audiopaths_and_text p.1)
       <$> TextMelLoader.__init__ rt2 seed randbelow filelist2 hparams2 g2).
Proof.
  intros Hseed. split; intros Hload.
  - unfold PPG_MelLoader.__init__. rewrite Hload, Hseed.
    destruct (load_filepaths_and_PPG rt2 filelist2) as [entries|e];
      simpl; [|reflexivity].
    destruct (Random.shuffle randbelow entries _) as [[x g]|e]; reflexivity.
  - unfold TextMelLoader.__init__. rewrite Hload, Hseed.
    destruct (load_filepaths_and_text rt2 filelist2) as [entries|e];
      simpl; [|reflexivity].
    destruct (Random.shuffle randbelow entries _) as [[x g]|e]; reflexivity.
Qed.

Lemma shuffle_determined_by_seed_witness :
  (λ p, PPG_MelLoader.audiopaths_and_PPG p.1)
    <$> PPG_MelLoader.__init__ (Fixture.world true) Fixture.lcg_seed
          Fixture.lcg_randbelow "filelists/train.txt"
          (Fixture.hparams true) 99%Z
  = (λ p, PPG_MelLoader.audiopaths_and_PPG p.1)
    <$> PPG_MelLoader.__init__ (Fixture.world false) Fixture.lcg_seed
          Fixture.lcg_randbelow "filelists/train.txt"
          (Fixture.hparams false) 7%Z.
Proof.
  apply (shuffle_determined_by_seed (Fixture.world true) (Fixture.world false)
           Fixture.lcg_seed Fixture.lcg_randbelow "filelists/train.txt"
           "filelists/train.txt" (Fixture.hparams true) (Fixture.hparams false)
           99%Z 7%Z); reflexivity.
Defined.

(** ** Sorting by length *)
Lemma StronglySorted_lookup {A : Type} (R : relation A) (l : list A) :
  StronglySorted R l →
  ∀ i j x y, i < j → l !! i = Some x → l !! j = Some y → R x y.
Proof.
  induction 1 as [|a l Hl IH Ha]; intros i j x y Hij Hx Hy; [done |].
  destruct j as [|j]; [lia |]. simpl in Hy.
  destruct i as [|i]; simplify_eq/=.
  - rewrite Forall_forall in Ha. apply Ha.
    apply list_elem_of_lookup. eauto.
  - apply (IH i j); [lia | done | done].
Qed.

Section insertion_facts.
Variable before : Z * nat → Z * nat → bool.
Variable R : relation (Z * nat).
Hypothesis R_transitive : Transitive R.
Hypothesis before_true : ∀ p q, before p q = true → R p q.
Hypothesis before_false : ∀ p q, before p q = false → R q p.

Lemma insert_Permutation (p : Z * nat) (l : list (Z * nat)) :
  Sort.insert before p l ≡ₚ p :: l.
Proof.
  induction l as [|q l IH]; simpl; [done |].
  destruct (before p q); [done |].
  rewrite IH. apply perm_swap.
Qed.

Lemma sort_pairs_Permutation (l : list (Z * nat)) :
  Sort.sort_pairs before l ≡ₚ l.
Proof.
  induction l as [|p l IH]; simpl; [done |].
  by rewrite insert_Permutation, IH.
Qed.

Lemma insert_StronglySorted (p : Z * nat) (l : list (Z * nat)) :
  StronglySorted R l → StronglySorted R (Sort.insert before p l).
Proof.
  induction 1 as [|q l Hl IH Hq]; simpl.
  - repeat constructor.
  - destruct (before p q) eqn:Hpq.
    + apply before_true in Hpq.
      constructor; [by constructor |].
      constructor; [done |].
      eapply Forall_impl; [exact Hq |].
      intros r Hr. by transitivity q.
    + apply before_false in Hpq.
      constructor; [done |].
      rewrite insert_Permutation. by constructor.
Qed.

Lemma sort_pairs_StronglySorted (l : list (Z * nat)) :
  StronglySorted R (Sort.sort_pairs before l).
Proof.
  induction l as [|p l IH]; simpl; [constructor |].
  by apply insert_StronglySorted.
Qed.
End insertion_facts.

(** Every sorted pair still carries the value found at its position. *)
Lemma sort_pairs_values (before : Z * nat → Z * nat → bool) (l : list Z) :
  Forall (λ p, p.1 = l !!! p.2)
    (Sort.sort_pairs before (zip l (seq 0 (length l)))).
Proof.
  rewrite sort_pairs_Permutation. apply Forall_forall. intros [v i] Hin.
  apply list_elem_of_lookup in Hin as [k Hk].
  apply lookup_zip_Some in Hk as [Hv Hi].
  apply lookup_seq in Hi as [-> _]. simpl.
  symmetry. by apply list_lookup_total_correct.
Qed.

Lemma sort_pairs_positions (before : Z * nat → Z * nat → bool) (l : list Z) :
  (Sort.sort_pairs before (zip l (seq 0 (length l)))).*2
  ≡ₚ seq 0 (length l).
Proof.
  rewrite sort_pairs_Permutation.
  rewrite snd_zip; [done | by rewrite length_seq].
Qed.

Lemma sort_with_spec (before : Z * nat → Z * nat → bool) :
  (∀ p q, before p q = true → Sort.by_value p q) →
  (∀ p q, before p q = false → Sort.by_value q p) →
  Sort.torch_sort_spec (Sort.sort_with before).
Proof.
  intros Htrue Hfalse l. unfold Sort.sort_with. simpl.
  split; [|split].
  - apply sort_pairs_positions.
  - rewrite <-list_fmap_compose. apply Forall_fmap_ext_1.
    apply sort_pairs_values.
  - apply (StronglySorted_fmap fst Sort.by_value Z.ge); [done |].
    apply sort_pairs_StronglySorted; [|done..].
    intros p q r. unfold Sort.by_value. lia.
Qed.

Lemma stable_sort_spec : Sort.torch_sort_spec Sort.stable_sort.
Proof.
  apply sort_with_spec; intros p q;
    unfold Sort.stable_before, Sort.by_value;
    repeat case_bool_decide; simpl; intros; try done; lia.
Qed.

Lemma unstable_sort_spec : Sort.torch_sort_spec Sort.unstable_sort.
Proof.
  intros l. unfold Sort.unstable_sort.
  destruct (decide (length l ≤ 16)); [apply stable_sort_spec |].
  apply (sort_with_spec Sort.latest_before); intros p q;
    unfold Sort.latest_before, Sort.by_value;
    repeat case_bool_decide; simpl; intros; try done; lia.
Qed.

Lemma StronglySorted_from_lookup {A : Type} (R : relation A) (l : list A) :
  (∀ i j x y, i < j → l !! i = Some x → l !! j = Some y → R x y) →
  StronglySorted R l.
Proof.
  induction l as [|x l IH]; intros Hl; constructor.
  - apply IH. intros i j a b Hij Ha Hb.
    apply (Hl (S i) (S j)); [lia | done | done].
  - apply Forall_forall. intros y Hy.
    apply list_elem_of_lookup in Hy as [j Hj].
    apply (Hl 0 (S j)); [lia | done | done].
Qed.

(** The only increasing arrangement of the positions 0, ..., n-1. *)
Lemma increasing_positions (l : list nat) (n : nat) :
  l ≡ₚ seq 0 n → StronglySorted lt l → l = seq 0 n.
Proof.
  intros Hperm Hsorted.
  apply (StronglySorted_unique_strong lt); [intros; lia | done | | done].
  apply StronglySorted_from_lookup.
  intros i j a b Hij Ha%lookup_seq Hb%lookup_seq. lia.
Qed.

(** On values that are pairwise different the promise of [torch.sort]
    leaves no choice. *)
Lemma sort_determined_without_ties
    (sort1 sort2 : list Z → list Z * list nat) (l : list Z) :
  Sort.torch_sort_spec sort1 → Sort.torch_sort_spec sort2 →
  NoDup l → sort1 l = sort2 l.
Proof.
  intros Hspec1 Hspec2 Hnodup.
  destruct (Hspec1 l) as (Hp1 & Hv1 & Hs1).
  destruct (Hspec2 l) as (Hp2 & Hv2 & Hs2).
  assert (Hvalues : (sort1 l).1 = (sort2 l).1).
  { apply (StronglySorted_unique_strong Z.ge); [intros; lia | done..|].
    by rewrite Hv1, Hv2, Hp1, Hp2. }
  assert (Hids : (sort1 l).2 = (sort2 l).2).
  { apply list_eq_same_length with (length l).
    - by rewrite Hp2, length_seq.
    - by rewrite Hp1, length_seq.
    - intros i a b Hi Ha Hb.
      assert (Hlt : a < length l).
      { assert (Hin : a ∈ (sort1 l).2) by (apply list_elem_of_lookup; eauto).
        rewrite Hp1 in Hin. apply elem_of_seq in Hin. lia. }
      assert (Hlt' : b < length l).
      { assert (Hin : b ∈ (sort2 l).2) by (apply list_elem_of_lookup; eauto).
        rewrite Hp2 in Hin. apply elem_of_seq in Hin. lia. }
      assert (Heq : l !!! a = l !!! b).
      { rewrite Hv1, Hv2 in Hvalues.
        apply (f_equal (λ v, v !! i)) in Hvalues.
        rewrite !list_lookup_fmap, Ha, Hb in Hvalues. simpl in Hvalues.
        congruence. }
      apply (NoDup_lookup l a b (l !!! a) Hnodup).
      + by apply list_lookup_lookup_total_lt.
      + rewrite Heq. by apply list_lookup_lookup_total_lt. }
  rewrite (surjective_pairing (sort1 l)), (surjective_pairing (sort2 l)).
  by rewrite Hvalues, Hids.
Qed.

(** [stable_sort] is a stable sort. *)
Lemma stable_sort_stable : Sort.stable Sort.stable_sort.
Proof.
  intros l i j a b Hij Ha Hb Heq.
  set (sp := Sort.sort_pairs Sort.stable_before (zip l (seq 0 (length l)))).
  change (Sort.stable_sort l).2 with sp.*2 in Ha, Hb.
  assert (Hnodup : NoDup sp.*2).
  { unfold sp. rewrite sort_pairs_positions. apply NoDup_seq. }
  assert (Hne : a ≠ b).
  { intros ->. pose proof (NoDup_lookup _ _ _ _ Hnodup Ha Hb). lia. }
  apply list_lookup_fmap_Some in Ha as ([va a'] & -> & Hpa).
  apply list_lookup_fmap_Some in Hb as ([vb b'] & -> & Hpb).
  simpl in *.
  pose proof (sort_pairs_values Sort.stable_before l) as Hvals.
  rewrite Forall_forall in Hvals.
  assert (Hva : va = l !!! a').
  { apply (Hvals (va, a')), list_elem_of_lookup. eauto. }
  assert (Hvb : vb = l !!! b').
  { apply (Hvals (vb, b')), list_elem_of_lookup. eauto. }
  assert (Hsorted : StronglySorted Sort.by_value_then_position sp).
  { apply sort_pairs_StronglySorted.
    - intros p q r. unfold Sort.by_value_then_position. lia.
    - intros p q. unfold Sort.stable_before, Sort.by_value_then_position.
      repeat case_bool_decide; simpl; intros; try done; lia.
    - intros p q. unfold Sort.stable_before, Sort.by_value_then_position.
      repeat case_bool_decide; simpl; intros; try done; lia. }
  pose proof (StronglySorted_lookup _ _ Hsorted i j _ _ Hij Hpa Hpb) as Hlex.
  unfold Sort.by_value_then_position in Hlex. simpl in Hlex. lia.
Qed.

(** [unstable_sort] is not: of seventeen equal values it returns the last
    first. *)
Lemma unstable_sort_not_stable : ¬ Sort.stable Sort.unstable_sort.
Proof.
  intros Hstable.
  pose proof (Hstable (replicate 17 2%Z) 0 1 16 15 ltac:(lia)
                eq_refl eq_refl eq_refl).
  lia.
Qed.

(** ** Batch collation *)

Lemma getitem_nat {A : Type} (l : list A) (i : nat) (x : A) :
  l !! i = Some x → getitem l (Z.of_nat i) = Ok x.
Proof.
  intros Hx. unfold getitem. cbv zeta.
  destruct (decide (Z.of_nat i < 0)%Z) as [? | _]; [lia |].
  destruct (decide (Z.of_nat i < 0)%Z) as [? | _]; [lia |].
  rewrite Nat2Z.id, Hx. reflexivity.
Qed.

Lemma for_range_invariant {St : Type} (body : St → nat → result St)
    (P : nat → St → Prop) (n i : nat) (s : St) :
  P i s →
  (∀ k s, i ≤ k < i + n → P k s → ∃ s', body s k = Ok s' ∧ P (S k) s') →
  ∃ s', TextMelCollate.for_range body i n s = Ok s' ∧ P (i + n) s'.
Proof.
  revert i s. induction n as [|n IH]; intros i s Hs Hstep; simpl.
  - exists s. by rewrite Nat.add_0_r.
  - destruct (Hstep i s ltac:(lia) Hs) as (s1 & Hbody & Hs1).
    rewrite Hbody. simpl.
    destruct (IH (S i) s1 Hs1) as (s2 & Hrec & Hs2).
    { intros k s' Hk. apply Hstep. lia. }
    exists s2. split; [done |].
    by replace (i + S n) with (S i + n) by lia.
Qed.

Lemma foldl_Zmax_ge (l : list Z) (x : Z) :
  (x ≤ foldl Z.max x l)%Z ∧ Forall (λ y, y ≤ foldl Z.max x l)%Z l.
Proof.
  revert x. induction l as [|y l IH]; intros x; simpl.
  - split; [lia | constructor].
  - destruct (IH (x `max` y)%Z) as [Hx Hl]. split; [lia |].
    constructor; [lia | done].
Qed.

Lemma foldl_Zmax_elem_of (l : list Z) (x : Z) :
  foldl Z.max x l ∈ x :: l.
Proof.
  revert x. induction l as [|y l IH]; intros x; simpl.
  - apply list_elem_of_here.
  - specialize (IH (x `max` y)%Z).
    apply elem_of_cons in IH as [Heq | Hin].
    + rewrite Heq. destruct (Z.max_spec x y) as [[_ ->] | [_ ->]].
      * apply list_elem_of_further, list_elem_of_here.
      * apply list_elem_of_here.
    + by do 2 apply list_elem_of_further.
Qed.

(** [max] of the target lengths is the largest of them. *)
Lemma py_max_lengths (l : list nat) :
  l ≠ [] →
  TextMelCollate.py_max (Z.of_nat <$> l) = Ok (Z.of_nat (max_list l)).
Proof.
  destruct l as [|x l]; [done | intros _]. simpl. f_equal.
  pose proof (foldl_Zmax_ge (Z.of_nat <$> l) (Z.of_nat x)) as [Hx Hl].
  pose proof (foldl_Zmax_elem_of (Z.of_nat <$> l) (Z.of_nat x)) as Hin.
  change (Z.of_nat x :: (Z.of_nat <$> l)) with (Z.of_nat <$> x :: l) in Hin.
  apply list_elem_of_fmap in Hin as (m & Hm & Hin).
  pose proof (max_list_elem_of_le m (x :: l) Hin) as Hle.
  assert (Hge : (Z.of_nat (max_list (x :: l))
                 ≤ foldl Z.max (Z.of_nat x) (Z.of_nat <$> l))%Z).
  { pose proof (max_list_elem_of (x :: l) ltac:(done)) as Hmax.
    apply elem_of_cons in Hmax as [-> | Hmax]; [done |].
    rewrite Forall_forall in Hl. apply Hl.
    apply list_elem_of_fmap. eauto. }
  change (list_fmap nat Z Z.of_nat l) with (Z.of_nat <$> l).
  change (max_list (x :: l)) with (x `max` max_list l) in *. lia.
Qed.

(** Rounding up to a multiple of a positive step. *)
Lemma round_up_spec (m n : Z) :
  (0 ≤ m)%Z → (0 < n)%Z →
  let r := (m `mod` n)%Z in
  let t := if decide (r ≠ 0)%Z then (m + (n - r))%Z else m in
  (t `mod` n = 0)%Z ∧ (m ≤ t)%Z ∧ (t < m + n)%Z.
Proof.
  intros Hm Hn r t.
  pose proof (Z.mod_pos_bound m n Hn) as Hr.
  pose proof (Z.div_mod m n ltac:(lia)) as Hdiv.
  subst t. destruct (decide (r ≠ 0)%Z) as [Hne | Heq]; subst r.
  - split; [|lia].
    replace (m + (n - m `mod` n))%Z with ((m `div` n + 1) * n)%Z by lia.
    apply Z.mod_mul. lia.
  - split; [|lia]. lia.
Qed.


Section collate_facts.
Context {F : Type}.
Variables (zero one : F) (to_float32 : F → F) (debug : bool).
Variable torch_sort : list Z → list Z * list nat.
Variable uninitialized : nat → Z.
Variable n_frames_per_step : Z.
Variable batch : list (list Z * tensor2 F).
Hypothesis sort_spec : Sort.torch_sort_spec torch_sort.
Hypothesis nonempty : batch ≠ [].
Hypothesis step_positive : (0 < n_frames_per_step)%Z.
Hypothesis channels : Batch.consistent_channels batch.

#[local] Abbreviation lens := (Batch.input_lengths_of batch).
#[local] Abbreviation values := (Batch.sorted_values torch_sort batch).
#[local] Abbreviation ids := (Batch.sorted_ids torch_sort batch).
#[local] Abbreviation source := (Batch.source torch_sort batch).
#[local] Abbreviation text_entry := (Batch.text_entry torch_sort batch).
#[local] Abbreviation text_invariant :=
  (Batch.text_invariant torch_sort batch).
#[local] Abbreviation mel_entry := (Batch.mel_entry zero to_float32 torch_sort batch).
#[local] Abbreviation gate_entry :=
  (Batch.gate_entry zero one torch_sort batch).
#[local] Abbreviation mel_invariant :=
  (Batch.mel_invariant zero one to_float32 torch_sort batch).

Lemma ids_Permutation : ids ≡ₚ seq 0 (length batch).
Proof.
  destruct (sort_spec lens) as (Hperm & _ & _).
  unfold Batch.sorted_ids, Batch.input_lengths_of in *.
  by rewrite length_fmap in Hperm.
Qed.

Lemma ids_length : length ids = length batch.
Proof. by rewrite ids_Permutation, length_seq. Qed.

Lemma ids_in_range (i id : nat) :
  ids !! i = Some id → ∃ x, batch !! id = Some x.
Proof.
  intros Hid. apply lookup_lt_is_Some.
  assert (Hin : id ∈ ids) by (apply list_elem_of_lookup; eauto).
  rewrite ids_Permutation in Hin. apply elem_of_seq in Hin. lia.
Qed.

Lemma ids_lookup (i : nat) :
  i < length batch → ∃ id x, ids !! i = Some id ∧ batch !! id = Some x.
Proof.
  intros Hi. rewrite <-ids_length in Hi.
  apply lookup_lt_is_Some in Hi as [id Hid].
  destruct (ids_in_range i id Hid) as [x Hx]. eauto.
Qed.

Lemma ids_cover (id : nat) :
  id < length batch → ∃ i, ids !! i = Some id.
Proof.
  intros Hid. apply list_elem_of_lookup.
  rewrite ids_Permutation. apply elem_of_seq. lia.
Qed.

Lemma values_lookup (i id : nat) (x : list Z * tensor2 F) :
  ids !! i = Some id → batch !! id = Some x →
  values !! i = Some (Z.of_nat (length x.1)).
Proof.
  intros Hid Hx. destruct (sort_spec lens) as (_ & Hval & _).
  unfold Batch.sorted_values, Batch.sorted_ids in *.
  rewrite Hval, list_lookup_fmap, Hid. simpl. f_equal.
  apply list_lookup_total_correct.
  unfold Batch.input_lengths_of.
  by rewrite list_lookup_fmap, Hx.
Qed.

Lemma values_descending (i j : nat) (v w : Z) :
  i < j → values !! i = Some v → values !! j = Some w → (w ≤ v)%Z.
Proof.
  intros Hij Hv Hw. destruct (sort_spec lens) as (_ & _ & Hsorted).
  pose proof (StronglySorted_lookup Z.ge _ Hsorted i j v w Hij Hv Hw). lia.
Qed.
Lemma text_fits (x : list Z * tensor2 F) :
  x ∈ batch → length x.1 ≤ Batch.max_input_len batch.
Proof.
  intros Hx. apply max_list_elem_of_le, list_elem_of_fmap. eauto.
Qed.

Lemma target_fits (x : list Z * tensor2 F) :
  x ∈ batch → size1 x.2 ≤ Batch.max_target_len batch.
Proof.
  intros Hx. apply max_list_elem_of_le, list_elem_of_fmap. eauto.
Qed.

(** The first sorted value is the largest input length. *)
Lemma values_head :
  values !! 0 = Some (Z.of_nat (Batch.max_input_len batch)).
Proof.
  assert (Hlen : 0 < length batch) by (destruct batch; [done | simpl; lia]).
  destruct (ids_lookup 0 Hlen) as (id0 & x0 & Hid0 & Hx0).
  rewrite (values_lookup 0 id0 x0 Hid0 Hx0). do 2 f_equal.
  apply Nat.le_antisymm.
  - apply text_fits, list_elem_of_lookup. eauto.
  - assert (Hmax : Batch.max_input_len batch
                   ∈ (λ x : list Z * tensor2 F, length x.1) <$> batch).
    { apply max_list_elem_of. by destruct batch. }
    apply list_elem_of_fmap in Hmax as (y & Hy & Hin).
    apply list_elem_of_lookup in Hin as [j Hj].
    destruct (ids_cover j) as [i Hi]; [by eapply lookup_lt_Some |].
    pose proof (values_lookup i j y Hi Hj) as Hvi.
    pose proof (values_lookup 0 id0 x0 Hid0 Hx0) as Hv0.
    destruct i as [|i].
    + rewrite Hv0 in Hvi. simplify_eq. lia.
    + pose proof (values_descending 0 (S i) _ _ ltac:(lia) Hv0 Hvi). lia.
Qed.

Lemma source_Some (r : nat) :
  r < length batch →
  ∃ id x, ids !! r = Some id ∧ batch !! id = Some x ∧ source r = Some x.
Proof.
  intros Hr. destruct (ids_lookup r Hr) as (id & x & Hid & Hx).
  exists id, x. unfold Batch.source. rewrite Hid. simpl. by rewrite Hx.
Qed.


Lemma text_step (k : nat) (tp : tensor2 Z) :
  0 ≤ k < 0 + length ids → text_invariant k tp →
  ∃ tp',
    (id ← getitem ids (Z.of_nat k);
     x ← getitem batch (Z.of_nat id);
     TextMelCollate.assign_text tp k x.1) = Ok tp'
    ∧ text_invariant (S k) tp'.
Proof using sort_spec.
  clear zero one to_float32 debug uninitialized.
  intros Hk (Hrows & Hcols & Hitems). rewrite ids_length in Hk.
  destruct (source_Some k) as (id & x & Hid & Hx & Hsrc); [lia |].
  rewrite (getitem_nat _ _ _ Hid). simpl.
  rewrite (getitem_nat _ _ _ Hx). simpl.
  assert (Hfit : length x.1 ≤ Batch.max_input_len batch).
  { apply text_fits, list_elem_of_lookup. eauto. }
  unfold TextMelCollate.assign_text.
  rewrite decide_True by lia. rewrite Hcols.
  rewrite Nat.min_l by lia.
  assert (Hexp : expandable (length x.1) (length x.1) = true).
  { unfold expandable. by rewrite bool_decide_eq_true_2. }
  rewrite Hexp. eexists. split; [reflexivity |].
  split; [done |]. split; [done |]. intros r c. simpl.
  rewrite Hitems. unfold Batch.text_entry.
  destruct (decide (r = k ∧ c < length x.1)) as [[-> Hc] | Hno].
  - rewrite decide_True by lia. rewrite Hsrc, decide_True by lia.
    unfold source_index. destruct (decide (length x.1 = 1)); [|done].
    f_equal. lia.
  - destruct (decide (r = k)) as [-> | Hne].
    + rewrite decide_False by lia. rewrite decide_True by lia.
      rewrite Hsrc. rewrite decide_False by tauto. done.
    + destruct (decide (r < k)).
      * by rewrite decide_True by lia.
      * by rewrite decide_False by lia.
Qed.

Lemma mel_step (C T k : nat) (s : tensor3 F * tensor2 F * list Z) :
  (∀ x, x ∈ batch → size0 x.2 = C) →
  (∀ x, x ∈ batch → size1 x.2 ≤ T) →
  0 ≤ k < 0 + length ids → mel_invariant C T k s →
  ∃ s',
    (let '(mel_padded, gate_padded, output_lengths) := s in
     id ← getitem ids (Z.of_nat k);
     x ← getitem batch (Z.of_nat id);
     mel_padded ← TextMelCollate.assign_mel to_float32 mel_padded k x.2;
     gate_padded ← TextMelCollate.assign_gate one gate_padded k
                     (Z.of_nat (size1 x.2) - 1);
     output_lengths ← TextMelCollate.assign_length output_lengths k
                        (Z.of_nat (size1 x.2));
     Ok (mel_padded, gate_padded, output_lengths)) = Ok s'
    ∧ mel_invariant C T (S k) s'.
Proof using sort_spec.
  clear debug uninitialized.
  intros Hchan Hfits Hk.
  destruct s as [[mp gp] ol]. unfold Batch.mel_invariant. simpl.
  intros (Hd0 & Hd1 & Hd2 & Hg0 & Hg1 & Hol & Hmel & Hgate & Hlen).
  rewrite ids_length in Hk.
  destruct (source_Some k) as (id & x & Hid & Hx & Hsrc); [lia |].
  assert (Hin : x ∈ batch) by (apply list_elem_of_lookup; eauto).
  rewrite (getitem_nat _ _ _ Hid). simpl.
  rewrite (getitem_nat _ _ _ Hx). simpl.
  unfold TextMelCollate.assign_mel.
  rewrite decide_True by lia. rewrite Hd1, Hd2, (Hchan x Hin).
  rewrite Nat.min_l by auto.
  assert (Hexp : ∀ n, expandable n n = true).
  { intros n. unfold expandable. by rewrite bool_decide_eq_true_2. }
  rewrite !Hexp. simpl.
  unfold TextMelCollate.assign_gate. rewrite decide_True by lia. simpl.
  unfold TextMelCollate.assign_length. rewrite decide_True by lia. simpl.
  eexists. split; [reflexivity |]. simpl.
  repeat split; try done.
  - by rewrite length_insert.
  - intros r c t Hc. unfold Batch.mel_entry.
    destruct (decide (r = k ∧ t < size1 x.2)) as [[-> Ht] | Hno].
    + rewrite decide_True by lia. rewrite Hsrc, decide_True by lia.
      unfold source_index.
      destruct (decide (C = 1)), (decide (size1 x.2 = 1));
        do 2 f_equal; lia.
    + rewrite (Hmel r c t Hc). unfold Batch.mel_entry.
      destruct (decide (r = k)) as [-> | Hne].
      * rewrite decide_False by lia. rewrite decide_True by lia.
        rewrite Hsrc. rewrite decide_False by tauto. done.
      * destruct (decide (r < k)).
        -- by rewrite decide_True by lia.
        -- by rewrite decide_False by lia.
  - intros r t. rewrite Hg1. unfold Batch.gate_entry.
    destruct (decide (r = k)) as [-> | Hne].
    + rewrite (decide_True (P:=k < S k)) by lia. rewrite Hsrc.
      destruct (decide (TextMelCollate.slice_start
                          (Z.of_nat (size1 x.2) - 1) T ≤ t)).
      * by rewrite decide_True by tauto.
      * rewrite decide_False by tauto. rewrite Hgate. unfold Batch.gate_entry.
        by rewrite decide_False by lia.
    + rewrite decide_False by tauto. rewrite Hgate. unfold Batch.gate_entry.
      destruct (decide (r < k)).
      * by rewrite decide_True by lia.
      * by rewrite decide_False by lia.
  - intros r Hr. destruct (decide (r = k)) as [-> | Hne].
    + rewrite list_lookup_insert_eq by lia. by rewrite Hsrc.
    + rewrite list_lookup_insert_ne by done. apply Hlen. lia.
Qed.
Lemma call_returns :
  ∃ out C T,
    TextMelCollate.__call__ zero one to_float32 debug torch_sort uninitialized
      n_frames_per_step batch = Ok out
    ∧ TextMelCollate.input_lengths out = values
    ∧ text_invariant (length batch) (TextMelCollate.text_padded out)
    ∧ (∀ x, x ∈ batch → size0 x.2 = C)
    ∧ (Z.of_nat T `mod` n_frames_per_step = 0)%Z
    ∧ Batch.max_target_len batch ≤ T
    ∧ (Z.of_nat T < Z.of_nat (Batch.max_target_len batch)
                    + n_frames_per_step)%Z
    ∧ mel_invariant C T (length batch)
        (TextMelCollate.mel_padded out, TextMelCollate.gate_padded out,
         TextMelCollate.output_lengths out).
Proof.
  pose proof values_head as Hhead.
  pose proof ids_length as Hids.
  unfold TextMelCollate.__call__.
  lazymatch goal with
  | |- context [torch_sort ?l] => rewrite (surjective_pairing (torch_sort l))
  end.
  cbv beta iota.
  change (torch_sort _).1 with values. change (torch_sort _).2 with ids.
  assert (H1 : getitem values 0
               = Ok (Z.of_nat (Batch.max_input_len batch))).
  { apply (getitem_nat values 0). exact Hhead. }
  rewrite H1. cbn [mbind result_bind].
  assert (Hsize : ∀ n : nat, TextMelCollate.tensor_size (Z.of_nat n) = Ok n).
  { intros n. unfold TextMelCollate.tensor_size.
    rewrite decide_False by lia. by rewrite Nat2Z.id. }
  rewrite Hsize. cbn [mbind result_bind].
  lazymatch goal with
  | |- context [TextMelCollate.for_range ?b 0 (length ids) (zeros2 ?z ?n ?w)] =>
      destruct (for_range_invariant b text_invariant (length ids) 0
                  (zeros2 z n w)) as (tp & Htp & Htext)
  end.
  { split; [done |]. split; [done |]. intros r c. unfold Batch.text_entry.
    by rewrite decide_False by lia. }
  { intros k tp Hk Hinv. by apply text_step. }
  rewrite Htp. cbn [mbind result_bind].
  assert (Hx0 : ∃ x0, batch !! 0 = Some x0).
  { destruct batch as [|x0 ?]; [done | by exists x0]. }
  destruct Hx0 as [x0 Hx0].
  assert (Hin0 : x0 ∈ batch) by (apply list_elem_of_lookup; eauto).
  rewrite (getitem_nat batch 0 x0 Hx0 : getitem batch 0 = Ok x0).
  cbn [mbind result_bind].
  assert (Hmax : TextMelCollate.py_max
                   ((λ x : list Z * tensor2 F, Z.of_nat (size1 x.2))
                      <$> batch)
                 = Ok (Z.of_nat (Batch.max_target_len batch))).
  { unfold Batch.max_target_len. rewrite <-py_max_lengths.
    - by rewrite <-list_fmap_compose.
    - by destruct batch. }
  rewrite Hmax. cbn [mbind result_bind].
  set (m := Z.of_nat (Batch.max_target_len batch)).
  assert (Hmod : ∀ a, TextMelCollate.py_mod a n_frames_per_step
                      = Ok (a `mod` n_frames_per_step)%Z).
  { intros a. unfold TextMelCollate.py_mod. by rewrite decide_False by lia. }
  rewrite Hmod. cbn [mbind result_bind].
  destruct (round_up_spec m n_frames_per_step ltac:(lia) step_positive)
    as (Hdiv & Hge & Hlt).
  set (t := if decide (m `mod` n_frames_per_step ≠ 0)%Z
            then (m + (n_frames_per_step - m `mod` n_frames_per_step))%Z
            else m) in *.
  assert (Hround :
    (if decide (m `mod` n_frames_per_step ≠ 0)%Z
     then
       py_assert debug
         (TextMelCollate.py_mod
            (m + (n_frames_per_step - m `mod` n_frames_per_step))
            n_frames_per_step
          ≫= λ r' : Z, Ok (bool_decide (r' = 0%Z)))
         (Ok "")
       ≫= λ _ : (),
            Ok (m + (n_frames_per_step - m `mod` n_frames_per_step))%Z
     else Ok m) = Ok (Z.of_nat (Z.to_nat t))).
  { rewrite Z2Nat.id by lia. subst t.
    destruct (decide (m `mod` n_frames_per_step ≠ 0)%Z); [|done].
    rewrite Hmod. cbn [mbind result_bind].
    rewrite bool_decide_eq_true_2 by done.
    unfold py_assert. by destruct debug. }
  rewrite Hround. cbn [mbind result_bind].
  rewrite Hsize. cbn [mbind result_bind].
  set (T := Z.to_nat t). set (C := size0 x0.2).
  lazymatch goal with
  | |- context [TextMelCollate.for_range ?b 0 (length ids) ?s0] =>
      destruct (for_range_invariant b (mel_invariant C T) (length ids) 0 s0)
        as ([[mp gp] ol] & Hloop & Hmel)
  end.
  { unfold Batch.mel_invariant. simpl.
    rewrite length_fmap, length_seq.
    split_and!; try done.
    all: intros; unfold Batch.mel_entry, Batch.gate_entry;
      try (by rewrite decide_False by lia); lia. }
  { intros k [[mp gp] ol] Hk Hinv.
    apply (mel_step C T k (mp, gp, ol)); try done.
    - intros x Hx. by apply channels.
    - intros x Hx. pose proof (target_fits x Hx). subst T m. lia. }
  rewrite Hloop. cbn [mbind result_bind].
  eexists _, C, T. split; [reflexivity |]. simpl.
  split; [done |]. split; [rewrite <-Hids; exact Htext |].
  split; [intros x Hx; by apply channels |].
  split; [subst T; by rewrite Z2Nat.id by lia |].
  split; [subst T m; lia |].
  split; [subst T m; lia |].
  rewrite <-Hids. exact Hmel.
Qed.
(** [__call__] returns, and its result reads as follows. *)
Lemma call_spec :
  ∃ out,
    TextMelCollate.__call__ zero one to_float32 debug torch_sort uninitialized
      n_frames_per_step batch = Ok out
    ∧ TextMelCollate.input_lengths out = values
    ∧ size0 (TextMelCollate.text_padded out) = length batch
    ∧ size1 (TextMelCollate.text_padded out) = Batch.max_input_len batch
    ∧ dim0 (TextMelCollate.mel_padded out) = length batch
    ∧ (∀ x, x ∈ batch → dim1 (TextMelCollate.mel_padded out) = size0 x.2)
    ∧ (Z.of_nat (dim2 (TextMelCollate.mel_padded out))
         `mod` n_frames_per_step = 0)%Z
    ∧ Batch.max_target_len batch ≤ dim2 (TextMelCollate.mel_padded out)
    ∧ (Z.of_nat (dim2 (TextMelCollate.mel_padded out))
       < Z.of_nat (Batch.max_target_len batch) + n_frames_per_step)%Z
    ∧ size0 (TextMelCollate.gate_padded out) = length batch
    ∧ size1 (TextMelCollate.gate_padded out)
      = dim2 (TextMelCollate.mel_padded out)
    ∧ length (TextMelCollate.output_lengths out) = length batch
    ∧ Batch.ordered_by zero one to_float32 batch ids out.
Proof.
  destruct call_returns
    as (out & C & T & Hcall & Hvalues & (Ht0 & Ht1 & Htext) & Hchan & Hdiv
        & Hge & Hlt & Hmel).
  unfold Batch.mel_invariant in Hmel. simpl in Hmel.
  destruct Hmel as (Hd0 & Hd1 & Hd2 & Hg0 & Hg1 & Hol & Hmel & Hgate & Hlen).
  exists out. split_and!; try done.
  - intros x Hx. rewrite Hd1. symmetry. by apply Hchan.
  - by rewrite Hd2.
  - by rewrite Hd2.
  - by rewrite Hd2.
  - by rewrite Hd2.
  - intros i id x Hid Hx.
    assert (Hi : i < length batch).
    { rewrite <-ids_length. by eapply lookup_lt_Some. }
    assert (Hsrc : source i = Some x).
    { unfold Batch.source. rewrite Hid. simpl. by rewrite Hx. }
    unfold Batch.row_holds. split_and!.
    + rewrite Hvalues. by apply (values_lookup i id).
    + intros c _. rewrite Htext. unfold Batch.text_entry.
      rewrite decide_True by done. by rewrite Hsrc.
    + intros c t Hc _. rewrite Hmel by lia. unfold Batch.mel_entry.
      rewrite decide_True by done. by rewrite Hsrc.
    + intros t _. rewrite Hgate, Hg1. unfold Batch.gate_entry.
      rewrite decide_True by done. by rewrite Hsrc.
    + rewrite Hlen by done. by rewrite Hsrc.
Qed.

Lemma ids_descending : Batch.descending batch ids.
Proof.
  intros i j a b xa xb Hij Ha Hb Hxa Hxb.
  pose proof (values_descending i j _ _ Hij
                (values_lookup i a xa Ha Hxa) (values_lookup j b xb Hb Hxb)).
  lia.
Qed.

(** C2: the collator returns, and in the row of an example with L ≥ 1
    target frames, L is at most the padded length T, the stop flag is 0
    at every index up to L-2 and 1 at every index from L-1 to T-1. *)
Theorem stop_flags_mark_the_end :
  ∃ out,
    TextMelCollate.__call__ zero one to_float32 debug torch_sort uninitialized
      n_frames_per_step batch = Ok out
    ∧ ∀ i id x,
        Batch.sorted_ids torch_sort batch !! i = Some id →
        batch !! id = Some x →
        1 ≤ size1 x.2 →
        size1 x.2 ≤ size1 (TextMelCollate.gate_padded out)
        ∧ ∀ t, t < size1 (TextMelCollate.gate_padded out) →
            (t + 2 ≤ size1 x.2 →
             item2 (TextMelCollate.gate_padded out) i t = zero)
            ∧ (size1 x.2 - 1 ≤ t →
               item2 (TextMelCollate.gate_padded out) i t = one).
Proof.
  destruct call_spec
    as (out & Hcall & _ & _ & _ & _ & _ & _ & Hge & _ & _ & Hg1 & _ & Hord).
  exists out. split; [done |]. intros i id x Hid Hx HL.
  assert (Hfit : size1 x.2 ≤ size1 (TextMelCollate.gate_padded out)).
  { rewrite Hg1. etrans; [|exact Hge].
    apply target_fits, list_elem_of_lookup. eauto. }
  split; [done |]. intros t Ht.
  destruct (Hord i id x Hid Hx) as (_ & _ & _ & Hgate & _).
  rewrite (Hgate t Ht).
  assert (Hstart : TextMelCollate.slice_start (Z.of_nat (size1 x.2) - 1)
                     (size1 (TextMelCollate.gate_padded out))
                   = size1 x.2 - 1).
  { unfold TextMelCollate.slice_start. rewrite decide_False by lia. lia. }
  rewrite Hstart. split; intros Hrange.
  - by rewrite decide_False by lia.
  - by rewrite decide_True by lia.
Qed.

(** C3: for a non-empty batch with consistent channel counts and a
    positive frames-per-step factor the collator returns; the padded
    inputs have shape (N, largest input length), and the last dimension
    of the padded targets is the smallest multiple of the factor that is
    at least the largest target length. *)
Theorem collate_shapes :
  ∃ out,
    TextMelCollate.__call__ zero one to_float32 debug torch_sort uninitialized
      n_frames_per_step batch = Ok out
    ∧ size0 (TextMelCollate.text_padded out) = length batch
    ∧ size1 (TextMelCollate.text_padded out) = Batch.max_input_len batch
    ∧ (n_frames_per_step
       | Z.of_nat (dim2 (TextMelCollate.mel_padded out)))%Z
    ∧ Batch.max_target_len batch ≤ dim2 (TextMelCollate.mel_padded out)
    ∧ ∀ m : Z,
        (n_frames_per_step | m)%Z →
        (Z.of_nat (Batch.max_target_len batch) ≤ m)%Z →
        (Z.of_nat (dim2 (TextMelCollate.mel_padded out)) ≤ m)%Z.
Proof.
  destruct call_spec
    as (out & Hcall & _ & Ht0 & Ht1 & _ & _ & Hdiv & Hge & Hlt & _).
  exists out. split_and!; try done.
  - apply Z.mod_divide; [lia | done].
  - intros m [a ->] Hm.
    apply Z.mod_divide in Hdiv as [b Hb]; [|lia].
    rewrite Hb in *.
    assert (Hba : (b < a + 1)%Z).
    { apply (Z.mul_lt_mono_pos_r n_frames_per_step); lia. }
    apply Z.mul_le_mono_nonneg_r; lia.
Qed.

(** C4, as far as the code goes: the collator takes the examples in an
    order [ids] that is a permutation of the batch positions with input
    lengths non-increasing, and row i of each of the five returned arrays
    is built from example [ids[i]].  Which of several examples of equal
    input length comes first is whatever [torch.sort] returns. *)
Theorem collate_rows_follow_one_order :
  ∃ out ids,
    TextMelCollate.__call__ zero one to_float32 debug torch_sort uninitialized
      n_frames_per_step batch = Ok out
    ∧ ids ≡ₚ seq 0 (length batch)
    ∧ Batch.descending batch ids
    ∧ StronglySorted Z.ge (TextMelCollate.input_lengths out)
    ∧ Batch.ordered_by zero one to_float32 batch ids out.
Proof.
  destruct call_spec
    as (out & Hcall & Hvalues & _ & _ & _ & _ & _ & _ & _ & _ & _ & _ & Hord).
  exists out, ids. split_and!; try done.
  - apply ids_Permutation.
  - apply ids_descending.
  - rewrite Hvalues. by destruct (sort_spec lens) as (_ & _ & Hsorted).
Qed.

(** When all examples have the same input length and no two the same
    symbols, an order that keeps ties in batch order is 0, 1, ..., and it
    describes the rows of the result only if it is the order [torch.sort]
    returned. *)
Lemma original_order_forces_sorted_ids (out : TextMelCollate.output F)
    (ids' : list nat) :
  (∀ x y, x ∈ batch → y ∈ batch → length x.1 = length y.1) →
  NoDup batch.*1 →
  TextMelCollate.__call__ zero one to_float32 debug torch_sort uninitialized
    n_frames_per_step batch = Ok out →
  ids' ≡ₚ seq 0 (length batch) →
  Batch.ties_in_original_order batch ids' →
  Batch.ordered_by zero one to_float32 batch ids' out →
  ids = seq 0 (length batch).
Proof.
  intros Hsame Hnodup Hcall Hperm Hties Hord'.
  destruct call_spec
    as (out0 & Hcall0 & _ & _ & Ht1 & _ & _ & _ & _ & _ & _ & _ & _ & Hord).
  rewrite Hcall in Hcall0. injection Hcall0 as <-.
  assert (Hids' : ids' = seq 0 (length batch)).
  { apply increasing_positions; [done |].
    apply StronglySorted_from_lookup. intros i j a b Hij Ha Hb.
    assert (Hxa : is_Some (batch !! a)).
    { apply lookup_lt_is_Some.
      assert (Hin : a ∈ ids') by (apply list_elem_of_lookup; eauto).
      rewrite Hperm in Hin. apply elem_of_seq in Hin. lia. }
    assert (Hxb : is_Some (batch !! b)).
    { apply lookup_lt_is_Some.
      assert (Hin : b ∈ ids') by (apply list_elem_of_lookup; eauto).
      rewrite Hperm in Hin. apply elem_of_seq in Hin. lia. }
    destruct Hxa as [xa Hxa], Hxb as [xb Hxb].
    apply (Hties i j a b xa xb Hij Ha Hb Hxa Hxb).
    apply Hsame; apply list_elem_of_lookup; eauto. }
  subst ids'.
  apply list_eq_same_length with (length batch);
    [by rewrite length_seq | apply ids_length |].
  intros i id j Hi Hid Hj. apply lookup_seq in Hj as [-> _]. simpl.
  destruct (ids_in_range i id Hid) as [x Hx].
  destruct (lookup_lt_is_Some_2 batch i Hi) as [y Hy].
  assert (Hinx : x ∈ batch) by (apply list_elem_of_lookup; eauto).
  assert (Hiny : y ∈ batch) by (apply list_elem_of_lookup; eauto).
  destruct (Hord i id x Hid Hx) as (_ & Htx & _).
  destruct (Hord' i i y (lookup_seq_lt 0 _ i Hi) Hy) as (_ & Hty & _).
  assert (Hxy : x.1 = y.1).
  { apply list_eq_same_length with (length x.1);
      [symmetry; by apply Hsame | done |].
    intros c a b Hc Ha Hb.
    assert (Hwidth : c < size1 (TextMelCollate.text_padded out)).
    { rewrite Ht1. pose proof (text_fits x Hinx). lia. }
    pose proof (Htx c Hwidth) as Hax. pose proof (Hty c Hwidth) as Hay.
    rewrite decide_True in Hax by done.
    rewrite decide_True in Hay by (rewrite <-(Hsame x y Hinx Hiny); done).
    rewrite (list_lookup_total_correct _ _ _ Ha) in Hax.
    rewrite (list_lookup_total_correct _ _ _ Hb) in Hay.
    congruence. }
  apply (NoDup_lookup batch.*1 id i x.1 Hnodup).
  - by rewrite list_lookup_fmap, Hx.
  - by rewrite list_lookup_fmap, Hy, Hxy.
Qed.
End collate_facts.

Lemma batch_3_7_5_channels : Batch.consistent_channels Fixture.batch_3_7_5.
Proof.
  intros x y Hx%list_elem_of_In Hy%list_elem_of_In.
  simpl in Hx, Hy.
  destruct Hx as [<- | [<- | [<- | []]]], Hy as [<- | [<- | [<- | []]]];
    reflexivity.
Qed.

Lemma stop_flags_witness :
  ∃ out,
    Fixture.collate Sort.stable_sort 2 Fixture.batch_3_7_5 = Ok out
    ∧ ∀ i id x,
        Batch.sorted_ids Sort.stable_sort Fixture.batch_3_7_5 !! i = Some id →
        Fixture.batch_3_7_5 !! id = Some x →
        1 ≤ size1 x.2 →
        size1 x.2 ≤ size1 (TextMelCollate.gate_padded out)
        ∧ ∀ t, t < size1 (TextMelCollate.gate_padded out) →
            (t + 2 ≤ size1 x.2 →
             item2 (TextMelCollate.gate_padded out) i t = 0%Z)
            ∧ (size1 x.2 - 1 ≤ t →
               item2 (TextMelCollate.gate_padded out) i t = 1%Z).
Proof.
  apply (stop_flags_mark_the_end 0%Z 1%Z Fixture.to_float32 true
           Sort.stable_sort (λ _, (-1)%Z) 2%Z Fixture.batch_3_7_5
           stable_sort_spec).
  - discriminate.
  - lia.
  - exact batch_3_7_5_channels.
Defined.

Lemma collate_shapes_witness :
  ∃ out,
    Fixture.collate Sort.stable_sort 2 Fixture.batch_3_7_5 = Ok out
    ∧ size0 (TextMelCollate.text_padded out) = 3
    ∧ size1 (TextMelCollate.text_padded out) = 7
    ∧ (2 | Z.of_nat (dim2 (TextMelCollate.mel_padded out)))%Z
    ∧ 5 ≤ dim2 (TextMelCollate.mel_padded out)
    ∧ ∀ m : Z, (2 | m)%Z → (5 ≤ m)%Z →
        (Z.of_nat (dim2 (TextMelCollate.mel_padded out)) ≤ m)%Z.
Proof.
  apply (collate_shapes 0%Z 1%Z Fixture.to_float32 true
           Sort.stable_sort (λ _, (-1)%Z) 2%Z Fixture.batch_3_7_5
           stable_sort_spec).
  - discriminate.
  - lia.
  - exact batch_3_7_5_channels.
Defined.

Lemma collate_rows_witness :
  ∃ out ids,
    Fixture.collate Sort.stable_sort 2 Fixture.batch_3_7_5 = Ok out
    ∧ ids ≡ₚ [0; 1; 2]
    ∧ Batch.descending Fixture.batch_3_7_5 ids
    ∧ StronglySorted Z.ge (TextMelCollate.input_lengths out)
    ∧ Batch.ordered_by 0%Z 1%Z Fixture.to_float32 Fixture.batch_3_7_5 ids out.
Proof.
  apply (collate_rows_follow_one_order 0%Z 1%Z Fixture.to_float32 true
           Sort.stable_sort (λ _, (-1)%Z) 2%Z Fixture.batch_3_7_5
           stable_sort_spec).
  - discriminate.
  - lia.
  - exact batch_3_7_5_channels.
Defined.

(** The batch of lengths 3, 7, 5 comes out in the order 7, 5, 3. *)
Example collate_3_7_5 :
  (λ out, (TextMelCollate.input_lengths out, TextMelCollate.output_lengths out,
           row (TextMelCollate.text_padded out) 1,
           row (TextMelCollate.gate_padded out) 1))
    <$> Fixture.collate Sort.stable_sort 2 Fixture.batch_3_7_5
  = Ok ([7; 5; 3]%Z, [5; 3; 3]%Z, [11; 12; 13; 14; 15; 0; 0]%Z,
        [0; 0; 1; 1; 1; 1]%Z).
Proof. vm_compute. reflexivity. Qed.

Lemma batch_17_ties_channels :
  Batch.consistent_channels Fixture.batch_17_ties.
Proof.
  intros x y Hx Hy. unfold Fixture.batch_17_ties in *.
  apply list_elem_of_fmap in Hx as (i & -> & _).
  apply list_elem_of_fmap in Hy as (j & -> & _). reflexivity.
Qed.

(** C4 as stated fails.  The order of examples of equal input length is
    the one [torch.sort] returns, and the call does not ask for a stable
    sort.  On a batch of seventeen examples of input length 2, whatever
    sort meeting the promise of [torch.sort] is used, if it returns the
    seventeen positions in another order than 0, 1, ..., 16 then the
    collator returns and no order that keeps ties in batch order
    describes the rows of its result; and the promise of [torch.sort]
    allows such a sort. *)
Lemma collate_ties_not_in_original_order :
  Batch.input_lengths_of Fixture.batch_17_ties = replicate 17 2%Z
  ∧ (∀ torch_sort : list Z → list Z * list nat,
       Sort.torch_sort_spec torch_sort →
       (torch_sort (replicate 17 2%Z)).2 ≠ seq 0 17 →
       ∃ out,
         Fixture.collate torch_sort 1 Fixture.batch_17_ties = Ok out
         ∧ ¬ ∃ ids,
               ids ≡ₚ seq 0 (length Fixture.batch_17_ties)
               ∧ Batch.descending Fixture.batch_17_ties ids
               ∧ Batch.ties_in_original_order Fixture.batch_17_ties ids
               ∧ Batch.ordered_by 0%Z 1%Z Fixture.to_float32
                   Fixture.batch_17_ties ids out)
  ∧ ∃ torch_sort : list Z → list Z * list nat,
      Sort.torch_sort_spec torch_sort
      ∧ (torch_sort (replicate 17 2%Z)).2 ≠ seq 0 17.
Proof.
  split; [reflexivity |]. split.
  - intros torch_sort Hspec Hmoved.
    destruct (call_spec 0%Z 1%Z Fixture.to_float32 true torch_sort
                (λ _, (-1)%Z) 1%Z Fixture.batch_17_ties Hspec)
      as (out & Hcall & _);
      [discriminate | lia | exact batch_17_ties_channels |].
    exists out. split; [exact Hcall |].
    intros (ids & Hperm & _ & Hties & Hord). apply Hmoved.
    apply (original_order_forces_sorted_ids 0%Z 1%Z Fixture.to_float32 true
             torch_sort (λ _, (-1)%Z) 1%Z Fixture.batch_17_ties Hspec
             ltac:(discriminate) ltac:(lia) batch_17_ties_channels out ids);
      try done.
    + intros x y Hx Hy. unfold Fixture.batch_17_ties in *.
      apply list_elem_of_fmap in Hx as (i & -> & _).
      apply list_elem_of_fmap in Hy as (j & -> & _). reflexivity.
    + apply (bool_decide_unpack _). vm_compute. exact I.
  - exists Sort.unstable_sort. split; [exact unstable_sort_spec |].
    vm_compute. discriminate.
Qed.

(** * Further properties of the loaders *)

(** X1: a manifest entry with fewer than two fields, such as a line
    without the separator, makes both pair builders raise [IndexError]
    when they read the second field; nothing is loaded. *)
Theorem short_entry_raises_IndexError {F : Type} (rt : runtime F)
    (ppg_self : PPG_MelLoader.instance F)
    (text_self : TextMelLoader.instance F) (entry : list string) :
  length entry ≤ 1 →
  PPG_MelLoader.get_mel_PPG_pair rt ppg_self entry = Raise IndexError
  ∧ TextMelLoader.get_mel_text_pair rt text_self entry = Raise IndexError.
Proof.
  intros Hlen. destruct entry as [|a [|b rest]]; simpl in Hlen; try lia;
    split; reflexivity.
Qed.

Lemma short_entry_witness :
  PPG_MelLoader.get_mel_PPG_pair (Fixture.world true)
    (Fixture.ppg_loader true) ["meian/meian_0000.wav"] = Raise IndexError
  ∧ TextMelLoader.get_mel_text_pair (Fixture.world true)
      (Fixture.text_loader true) ["meian/meian_0000.wav"] = Raise IndexError.
Proof.
  apply (short_entry_raises_IndexError (Fixture.world true)
           (Fixture.ppg_loader true) (Fixture.text_loader true)
           ["meian/meian_0000.wav"]).
  simpl. lia.
Defined.

(** X2: item access on the text loader with an index outside
    [-len, len) raises [IndexError]; no entry is processed. *)
Theorem Text_getitem_out_of_range {F : Type} (rt : runtime F)
    (self : TextMelLoader.instance F) (index : Z) :
  (Z.of_nat (TextMelLoader.__len__ self) ≤ index
   ∨ index < - Z.of_nat (TextMelLoader.__len__ self))%Z →
  TextMelLoader.__getitem__ rt self index = Raise IndexError.
Proof.
  intros Hrange. rewrite Text_getitem_reaches_method.
  unfold TextMelLoader.__len__ in Hrange. unfold getitem. cbv zeta.
  destruct (decide (index < 0)%Z) as [Hneg | Hpos].
  - destruct (decide (index + Z.of_nat _ < 0)%Z) as [? | Hge];
      [reflexivity | lia].
  - destruct (decide (index < 0)%Z); [lia |].
    rewrite lookup_ge_None_2 by lia. reflexivity.
Qed.

Lemma Text_getitem_out_of_range_witness :
  TextMelLoader.__getitem__ (Fixture.world true) (Fixture.text_loader true) 1
  = Raise IndexError.
Proof.
  apply (Text_getitem_out_of_range (Fixture.world true)
           (Fixture.text_loader true) 1%Z).
  left. vm_compute. discriminate.
Defined.

(** X3: a text loader that reads precomputed spectrograms returns, at a
    position [i] of its manifest and at [i - len], the pair of the encoded
    text of the entry's second field and the array stored under its first
    field, text first, when the encoder accepts the text and the array has
    the configured number of mel channels. *)
Theorem Text_getitem_from_disk {F : Type} (rt : runtime F)
    (self : TextMelLoader.instance F) (i : nat) (entry : list string)
    (audiopath text : string) (symbols : list Z) (melspec : tensor2 F) :
  TextMelLoader.load_mel_from_disk self = true →
  TextMelLoader.audiopaths_and_text self !! i = Some entry →
  entry !! 0 = Some audiopath →
  entry !! 1 = Some text →
  text_to_sequence rt text (TextMelLoader.text_cleaners self) = Ok symbols →
  np_load rt audiopath = Ok melspec →
  Z.of_nat (size0 melspec)
  = Layers.n_mel_channels (TextMelLoader.stft self) →
  TextMelLoader.__getitem__ rt self (Z.of_nat i) = Ok (symbols, melspec)
  ∧ TextMelLoader.__getitem__ rt self
      (Z.of_nat i - Z.of_nat (TextMelLoader.__len__ self))
    = Ok (symbols, melspec).
Proof.
  intros Hdisk Hentry Hpath Htext Hsymbols Hload Hchannels.
  assert (Hpair : TextMelLoader.get_mel_text_pair rt self entry
                  = Ok (symbols, melspec)).
  { unfold TextMelLoader.get_mel_text_pair.
    rewrite (getitem_nat entry 0 _ Hpath : getitem entry 0 = Ok audiopath).
    cbn [mbind result_bind].
    rewrite (getitem_nat entry 1 _ Htext : getitem entry 1 = Ok text).
    cbn [mbind result_bind].
    unfold TextMelLoader.get_text. rewrite Hsymbols.
    cbn [mbind result_bind].
    unfold TextMelLoader.get_mel. rewrite Hdisk, Hload.
    cbn [negb mbind result_bind].
    rewrite bool_decide_eq_true_2 by done.
    unfold py_assert. by destruct (debug rt). }
  pose proof (lookup_lt_Some _ _ _ Hentry) as Hlt.
  rewrite !Text_getitem_reaches_method. split.
  - by rewrite (getitem_nat _ _ _ Hentry).
  - unfold TextMelLoader.__len__, getitem. cbv zeta.
    set (len := length (TextMelLoader.audiopaths_and_text self)) in *.
    destruct (decide (Z.of_nat i - Z.of_nat len < 0)%Z) as [_ | ?]; [|lia].
    replace (Z.of_nat i - Z.of_nat len + Z.of_nat len)%Z
      with (Z.of_nat i) by lia.
    destruct (decide (Z.of_nat i < 0)%Z) as [? | _]; [lia |].
    by rewrite Nat2Z.id, Hentry.
Qed.

Lemma Text_getitem_from_disk_witness :
  TextMelLoader.__getitem__ (Fixture.world true) Samples.disk_loader 1
  = Ok ([0; 1]%Z, Fixture.mel_2x3)
  ∧ TextMelLoader.__getitem__ (Fixture.world true) Samples.disk_loader (-1)
    = Ok ([0; 1]%Z, Fixture.mel_2x3).
Proof.
  apply (Text_getitem_from_disk (Fixture.world true) Samples.disk_loader 1
           ["mels/a.npy"; "hi"] "mels/a.npy" "hi" [0; 1]%Z Fixture.mel_2x3);
    reflexivity.
Defined.

(** X4: with assertions executed [get_mel_PPG_pair] returns no pair for
    any manifest entry; when the entry has its two fields and the speaker
    embedding is computed, what is raised is the [AssertionError] of
    [get_ppg], before any PPG or mel file is read. *)
Theorem PPG_pair_never_returns {F : Type} (rt : runtime F)
    (self : PPG_MelLoader.instance F) (entry : list string) :
  debug rt = true →
  (∃ e, PPG_MelLoader.get_mel_PPG_pair rt self entry = Raise e)
  ∧ ∀ audiopath PPG speaker_embedding,
      entry !! 0 = Some audiopath → entry !! 1 = Some PPG →
      embed_utterance rt audiopath = Ok speaker_embedding →
      PPG_MelLoader.get_mel_PPG_pair rt self entry
      = Raise (AssertionError "speaker_embedding的数据类型错误").
Proof.
  intros Hdebug.
  assert (Hppg : ∀ PPG emb,
            PPG_MelLoader.get_ppg rt self PPG emb
            = Raise (AssertionError "speaker_embedding的数据类型错误")).
  { intros PPG emb. unfold PPG_MelLoader.get_ppg.
    rewrite Hdebug, type_never_equals_name. reflexivity. }
  split.
  - unfold PPG_MelLoader.get_mel_PPG_pair.
    destruct (getitem entry 0) as [audiopath | e]; simpl; [|eauto].
    destruct (getitem entry 1) as [PPG | e]; simpl; [|eauto].
    destruct (PPG_MelLoader.get_id rt self audiopath) as [emb | e]; simpl;
      [|eauto].
    rewrite Hppg. simpl. eauto.
  - intros audiopath PPG emb Ha Hp Hemb.
    unfold PPG_MelLoader.get_mel_PPG_pair.
    rewrite (getitem_nat entry 0 _ Ha : getitem entry 0 = Ok audiopath).
    simpl.
    rewrite (getitem_nat entry 1 _ Hp : getitem entry 1 = Ok PPG). simpl.
    unfold PPG_MelLoader.get_id. rewrite Hemb. simpl.
    rewrite Hppg. reflexivity.
Qed.

Lemma PPG_pair_never_returns_witness :
  ∃ e, PPG_MelLoader.get_mel_PPG_pair (Fixture.world true)
         (Fixture.ppg_loader true) ["meian/meian_0000.wav"; "PPG/PPG_0.npy"]
       = Raise e.
Proof.
  apply (PPG_pair_never_returns (Fixture.world true) (Fixture.ppg_loader true)
           ["meian/meian_0000.wav"; "PPG/PPG_0.npy"]).
  reflexivity.
Defined.

(** With assertions compiled out [get_ppg] is [np.load]: the speaker
    embedding plays no part. *)
Lemma get_ppg_without_assertions {F : Type} (rt : runtime F)
    (self : PPG_MelLoader.instance F) (PPG : string) (emb : pyval F) :
  debug rt = false →
  PPG_MelLoader.get_ppg rt self PPG emb = np_load rt PPG.
Proof.
  intros Hdebug. unfold PPG_MelLoader.get_ppg. rewrite Hdebug. simpl.
  destruct (np_load rt PPG) as [PPG_temp | e]; simpl; [|reflexivity].
  by rewrite get_ppg_loop_keeps_array.
Qed.

(** X5: with assertions compiled out ([python -O]) [get_mel_PPG_pair] on
    an entry with its two fields computes the speaker embedding, then
    pairs the PPG array exactly as stored with the spectrogram of the
    audio file; the embedding does not reach the result. *)
Theorem PPG_pair_without_assertions {F : Type} (rt : runtime F)
    (self : PPG_MelLoader.instance F) (audiopath PPG : string)
    (rest : list string) :
  debug rt = false →
  PPG_MelLoader.get_mel_PPG_pair rt self (audiopath :: PPG :: rest)
  = (_ ← embed_utterance rt audiopath;
     ppg ← np_load rt PPG;
     mel ← PPG_MelLoader.get_mel rt self audiopath;
     Ok (ppg, mel)).
Proof.
  intros Hdebug. unfold PPG_MelLoader.get_mel_PPG_pair.
  change (getitem (audiopath :: PPG :: rest) 0) with (Ok audiopath).
  change (getitem (audiopath :: PPG :: rest) 1) with (Ok PPG).
  cbn [mbind result_bind]. unfold PPG_MelLoader.get_id.
  destruct (embed_utterance rt audiopath) as [emb | e];
    cbn [mbind result_bind]; [|reflexivity].
  by rewrite get_ppg_without_assertions.
Qed.

Lemma PPG_pair_without_assertions_witness :
  PPG_MelLoader.get_mel_PPG_pair (Fixture.world false)
    (Fixture.ppg_loader true) ["mels/a.npy"; "PPG/PPG_0.npy"]
  = (_ ← embed_utterance (Fixture.world false) "mels/a.npy";
     ppg ← np_load (Fixture.world false) "PPG/PPG_0.npy";
     mel ← PPG_MelLoader.get_mel (Fixture.world false)
             (Fixture.ppg_loader true) "mels/a.npy";
     Ok (ppg, mel)).
Proof.
  apply (PPG_pair_without_assertions (Fixture.world false)
           (Fixture.ppg_loader true) "mels/a.npy" "PPG/PPG_0.npy" []).
  reflexivity.
Defined.

(** ** The shuffle acts on positions *)

Lemma swap_fmap {A B : Type} (f : A → B) (x : list A) (i j : nat) :
  Random.swap (f <$> x) i j
  = (λ y : list A, f <$> y) <$> Random.swap x i j.
Proof.
  unfold Random.swap. rewrite !list_lookup_fmap.
  destruct (x !! j) as [xj|]; simpl; [|reflexivity].
  destruct (x !! i) as [xi|]; simpl; [|reflexivity].
  by rewrite !list_fmap_insert.
Qed.

Lemma shuffle_from_fmap {state A B : Type}
    (randbelow : nat → state → nat * state) (f : A → B)
    (i : nat) (x : list A) (g : state) :
  Random.shuffle_from randbelow i (f <$> x) g
  = (λ p : list A * state, (f <$> p.1, p.2))
    <$> Random.shuffle_from randbelow i x g.
Proof.
  revert x g. induction i as [|i IH]; intros x g; simpl; [reflexivity |].
  destruct (randbelow (S (S i)) g) as [j g1].
  rewrite swap_fmap.
  destruct (Random.swap x (S i) j) as [x1 | e]; simpl; [|reflexivity].
  apply IH.
Qed.

Lemma shuffle_fmap {state A B : Type}
    (randbelow : nat → state → nat * state) (f : A → B)
    (x : list A) (g : state) :
  Random.shuffle randbelow (f <$> x) g
  = (λ p : list A * state, (f <$> p.1, p.2))
    <$> Random.shuffle randbelow x g.
Proof.
  unfold Random.shuffle. rewrite length_fmap. apply shuffle_from_fmap.
Qed.

(** X6: which entry ends up where depends on the seed and the number of
    entries only: if a second manifest is the first with every entry
    transformed by [f], the loader built from it with the same seed holds
    the first loader's entries transformed by [f], in the same order. *)
Theorem shuffle_acts_on_positions {F state : Type} (rt1 rt2 : runtime F)
    (seed : Z → state) (randbelow : nat → state → nat * state)
    (f : list string → list string)
    (filelist1 filelist2 : string) (entries : list (list string))
    (hparams1 hparams2 : Hparams.hparams F) (g1 g2 : state) :
  Hparams.seed hparams1 = Hparams.seed hparams2 →
  (load_filepaths_and_PPG rt1 filelist1 = Ok entries →
   load_filepaths_and_PPG rt2 filelist2 = Ok (f <$> entries) →
   (λ p, PPG_MelLoader.audiopaths_and_PPG p.1)
     <$> PPG_MelLoader.__init__ rt2 seed randbelow filelist2 hparams2 g2
   = (λ p, f <$> PPG_MelLoader.audiopaths_and_PPG p.1)
     <$> PPG_MelLoader.__init__ rt1 seed randbelow filelist1 hparams1 g1)
  ∧ (load_filepaths_and_text rt1 filelist1 = Ok entries →
     load_filepaths_and_text rt2 filelist2 = Ok (f <$> entries) →
     (λ p, TextMelLoader.audiopaths_and_text p.1)
       <$> TextMelLoader.__init__ rt2 seed randbelow filelist2 hparams2 g2
     = (λ p, f <$> TextMelLoader.audiopaths_and_text p.1)
       <$> TextMelLoader.__init__ rt1 seed randbelow filelist1 hparams1 g1).
Proof.
  intros Hseed. split; intros Hload1 Hload2.
  - unfold PPG_MelLoader.__init__. rewrite Hload1, Hload2, Hseed. simpl.
    rewrite shuffle_fmap.
    destruct (Random.shuffle randbelow entries _) as [[x g] | e]; reflexivity.
  - unfold TextMelLoader.__init__. rewrite Hload1, Hload2, Hseed. simpl.
    rewrite shuffle_fmap.
    destruct (Random.shuffle randbelow entries _) as [[x g] | e]; reflexivity.
Qed.

Lemma shuffle_acts_on_positions_witness :
  (λ p, PPG_MelLoader.audiopaths_and_PPG p.1)
    <$> PPG_MelLoader.__init__ Samples.world_audio Fixture.lcg_seed
          Fixture.lcg_randbelow "filelists/train.txt"
          (Fixture.hparams false) 7%Z
  = (λ p, take 1 <$> PPG_MelLoader.audiopaths_and_PPG p.1)
    <$> PPG_MelLoader.__init__ (Fixture.world true) Fixture.lcg_seed
          Fixture.lcg_randbelow "filelists/train.txt"
          (Fixture.hparams true) 99%Z.
Proof.
  apply (proj1 (shuffle_acts_on_positions (Fixture.world true)
                  Samples.world_audio Fixture.lcg_seed Fixture.lcg_randbelow
                  (take 1) "filelists/train.txt" "filelists/train.txt"
                  [["meian/meian_0000.wav"; "PPG/PPG_0.npy"];
                   ["meian/meian_0001.wav"; "PPG/PPG_1.npy"];
                   ["meian/meian_0002.wav"; "PPG/PPG_2.npy"];
                   ["meian/meian_0003.wav"; "PPG/PPG_3.npy"]]
                  (Fixture.hparams true) (Fixture.hparams false) 99%Z 7%Z
                  eq_refl)); reflexivity.
Defined.

(** X7: a manifest of at most one entry is held as loaded and no random
    number is drawn: the generator is left in the state [random.seed] put
    it in. *)
Theorem small_manifest_is_kept {F state : Type} (rt : runtime F)
    (seed : Z → state) (randbelow : nat → state → nat * state)
    (filelist : string) (entries : list (list string))
    (hparams : Hparams.hparams F) (g : state) :
  length entries ≤ 1 →
  (load_filepaths_and_PPG rt filelist = Ok entries →
   ∃ self,
     PPG_MelLoader.__init__ rt seed randbelow filelist hparams g
       = Ok (self, seed (Hparams.seed hparams))
     ∧ PPG_MelLoader.audiopaths_and_PPG self = entries)
  ∧ (load_filepaths_and_text rt filelist = Ok entries →
     ∃ self,
       TextMelLoader.__init__ rt seed randbelow filelist hparams g
         = Ok (self, seed (Hparams.seed hparams))
       ∧ TextMelLoader.audiopaths_and_text self = entries).
Proof.
  intros Hlen.
  assert (Hshuffle : ∀ g0 : state,
            Random.shuffle randbelow entries g0 = Ok (entries, g0)).
  { intros g0. destruct entries as [|a [|b rest]]; simpl in Hlen; try lia;
      reflexivity. }
  split; intros Hload.
  - unfold PPG_MelLoader.__init__. rewrite Hload. simpl.
    rewrite Hshuffle. simpl. eexists. split; reflexivity.
  - unfold TextMelLoader.__init__. rewrite Hload. simpl.
    rewrite Hshuffle. simpl. eexists. split; reflexivity.
Qed.

Lemma small_manifest_witness :
  ∃ self,
    TextMelLoader.__init__ Samples.world_single Fixture.lcg_seed
      Fixture.lcg_randbelow "filelists/train.txt" (Fixture.hparams true) 99%Z
    = Ok (self, Fixture.lcg_seed 1234)
    ∧ TextMelLoader.audiopaths_and_text self
      = [["meian/meian_0000.wav"; "PPG/PPG_0.npy"]].
Proof.
  apply (proj2 (small_manifest_is_kept Samples.world_single Fixture.lcg_seed
                  Fixture.lcg_randbelow "filelists/train.txt"
                  [["meian/meian_0000.wav"; "PPG/PPG_0.npy"]]
                  (Fixture.hparams true) 99%Z ltac:(simpl; lia))).
  reflexivity.
Defined.

(** * Further properties of the collator *)

Lemma fmap_lookup_total_seq {A : Type} `{!Inhabited A} (l : list A) :
  (λ t, l !!! t) <$> seq 0 (length l) = l.
Proof.
  apply list_eq. intros t. rewrite list_lookup_fmap.
  destruct (decide (t < length l)) as [Hlt | Hge].
  - rewrite lookup_seq_lt by done. simpl.
    destruct (lookup_lt_is_Some_2 l t Hlt) as [x Hx].
    by rewrite Hx, (list_lookup_total_correct l t x Hx).
  - rewrite lookup_seq_ge by lia. simpl.
    symmetry. apply lookup_ge_None_2. lia.
Qed.

(** A row that agrees with [g] below [k] and is [z] from there on is the
    first [k] values of [g] followed by padding. *)
Lemma fmap_seq_padded {A : Type} (f g : nat → A) (z : A) (n k : nat) :
  k ≤ n →
  (∀ t, t < n → f t = if decide (t < k) then g t else z) →
  f <$> seq 0 n = (g <$> seq 0 k) ++ replicate (n - k) z.
Proof.
  intros Hk Hf. apply list_eq. intros t. rewrite list_lookup_fmap.
  destruct (decide (t < n)) as [Hlt | Hge].
  - rewrite lookup_seq_lt by done. simpl. rewrite (Hf t Hlt).
    destruct (decide (t < k)) as [Htk | Htk].
    + rewrite lookup_app_l by (rewrite length_fmap, length_seq; lia).
      rewrite list_lookup_fmap, lookup_seq_lt by done. reflexivity.
    + rewrite lookup_app_r by (rewrite length_fmap, length_seq; lia).
      rewrite length_fmap, length_seq.
      symmetry. apply lookup_replicate_2. lia.
  - rewrite lookup_seq_ge by lia. simpl. symmetry.
    apply lookup_ge_None_2.
    rewrite length_app, length_fmap, length_seq, length_replicate. lia.
Qed.

Section collate_reading.
Context {F : Type}.
Variables (zero one : F) (to_float32 : F → F) (debug : bool).
Variable torch_sort : list Z → list Z * list nat.
Variable uninitialized : nat → Z.
Variable n_frames_per_step : Z.
Variable batch : list (list Z * tensor2 F).
Hypothesis sort_spec : Sort.torch_sort_spec torch_sort.
Hypothesis nonempty : batch ≠ [].
Hypothesis step_positive : (0 < n_frames_per_step)%Z.
Hypothesis channels : Batch.consistent_channels batch.

(** X8: all five returned arrays have one row per example: the length
    arrays have N entries, the padded targets have shape (N, channels of
    the first example, T) and the stop flags (N, T) with the same T. *)
Theorem collate_output_shapes :
  ∃ out,
    TextMelCollate.__call__ zero one to_float32 debug torch_sort uninitialized
      n_frames_per_step batch = Ok out
    ∧ size0 (TextMelCollate.text_padded out) = length batch
    ∧ length (TextMelCollate.input_lengths out) = length batch
    ∧ dim0 (TextMelCollate.mel_padded out) = length batch
    ∧ (∀ x0, batch !! 0 = Some x0 →
         dim1 (TextMelCollate.mel_padded out) = size0 x0.2)
    ∧ size0 (TextMelCollate.gate_padded out) = length batch
    ∧ size1 (TextMelCollate.gate_padded out)
      = dim2 (TextMelCollate.mel_padded out)
    ∧ length (TextMelCollate.output_lengths out) = length batch.
Proof.
  destruct (call_spec zero one to_float32 debug torch_sort uninitialized
              n_frames_per_step batch sort_spec nonempty step_positive
              channels)
    as (out & Hcall & Hvalues & Ht0 & _ & Hd0 & Hd1 & _ & _ & _ & Hg0 & Hg1
        & Hol & _).
  exists out. split_and!; try done.
  - rewrite Hvalues. destruct (sort_spec (Batch.input_lengths_of batch))
      as (Hperm & Hval & _).
    unfold Batch.sorted_values. rewrite Hval, length_fmap.
    by apply ids_length.
  - intros x0 Hx0. apply Hd1, list_elem_of_lookup. eauto.
Qed.

(** X9: each row gives its example back: row i of the padded inputs is
    the symbols of example [ids[i]] followed by zeros, and each channel of
    row i of the padded targets is that channel of its spectrogram, each
    entry converted to [float32] as the [FloatTensor] stores it, followed
    by zero frames. *)
Theorem collate_rows_are_padded_examples :
  ∃ out,
    TextMelCollate.__call__ zero one to_float32 debug torch_sort uninitialized
      n_frames_per_step batch = Ok out
    ∧ ∀ i id x,
        Batch.sorted_ids torch_sort batch !! i = Some id →
        batch !! id = Some x →
        row (TextMelCollate.text_padded out) i
        = x.1 ++ replicate (size1 (TextMelCollate.text_padded out)
                            - length x.1) 0%Z
        ∧ ∀ c, c < size0 x.2 →
            item3 (TextMelCollate.mel_padded out) i c
              <$> seq 0 (dim2 (TextMelCollate.mel_padded out))
            = (to_float32 <$> row x.2 c)
              ++ replicate (dim2 (TextMelCollate.mel_padded out) - size1 x.2)
                   zero.
Proof.
  destruct (call_spec zero one to_float32 debug torch_sort uninitialized
              n_frames_per_step batch sort_spec nonempty step_positive
              channels)
    as (out & Hcall & _ & _ & Ht1 & _ & Hd1 & _ & Hge & _ & _ & _ & _ & Hord).
  exists out. split; [done |]. intros i id x Hid Hx.
  assert (Hin : x ∈ batch) by (apply list_elem_of_lookup; eauto).
  destruct (Hord i id x Hid Hx) as (_ & Htext & Hmel & _ & _).
  split.
  - unfold row.
    rewrite (fmap_seq_padded _ (λ t, x.1 !!! t) 0%Z _ (length x.1)).
    + by rewrite fmap_lookup_total_seq.
    + rewrite Ht1. by apply text_fits.
    + done.
  - intros c Hc. unfold row. rewrite <-list_fmap_compose.
    apply (fmap_seq_padded _ (to_float32 ∘ item2 x.2 c)).
    + pose proof (target_fits batch x Hin). lia.
    + intros t Ht. apply Hmel; [|done]. by rewrite (Hd1 x Hin).
Qed.

(** X10: the two returned length arrays are rearrangements of the
    examples' input lengths and target lengths: no length is lost,
    repeated or left unwritten. *)
Theorem collate_lengths_are_permutations :
  ∃ out,
    TextMelCollate.__call__ zero one to_float32 debug torch_sort uninitialized
      n_frames_per_step batch = Ok out
    ∧ TextMelCollate.input_lengths out
      ≡ₚ (λ x : list Z * tensor2 F, Z.of_nat (length x.1)) <$> batch
    ∧ TextMelCollate.output_lengths out
      ≡ₚ (λ x : list Z * tensor2 F, Z.of_nat (size1 x.2)) <$> batch.
Proof.
  destruct (call_spec zero one to_float32 debug torch_sort uninitialized
              n_frames_per_step batch sort_spec nonempty step_positive
              channels)
    as (out & Hcall & Hvalues & _ & _ & _ & _ & _ & _ & _ & _ & _ & Hol
        & Hord).
  pose proof (ids_Permutation torch_sort batch sort_spec) as Hperm.
  pose proof (ids_length torch_sort batch sort_spec) as Hlen.
  exists out. split; [done |]. split.
  - rewrite Hvalues. unfold Batch.sorted_values.
    destruct (sort_spec (Batch.input_lengths_of batch)) as (Hp & Hval & _).
    rewrite Hval, Hp. by rewrite fmap_lookup_total_seq.
  - set (lengths := (λ x : list Z * tensor2 F, Z.of_nat (size1 x.2))
                      <$> batch).
    assert (Heq : TextMelCollate.output_lengths out
                  = (λ id, lengths !!! id)
                      <$> Batch.sorted_ids torch_sort batch).
    { apply list_eq. intros i. rewrite list_lookup_fmap.
      destruct (decide (i < length batch)) as [Hlt | Hge].
      - destruct (ids_lookup torch_sort batch sort_spec i Hlt)
          as (id & x & Hid & Hx).
        destruct (Hord i id x Hid Hx) as (_ & _ & _ & _ & Hout).
        rewrite Hout, Hid. simpl. f_equal. symmetry.
        apply list_lookup_total_correct.
        unfold lengths. by rewrite list_lookup_fmap, Hx.
      - rewrite (lookup_ge_None_2 (TextMelCollate.output_lengths out))
          by lia.
        by rewrite (lookup_ge_None_2 (Batch.sorted_ids torch_sort batch))
          by lia. }
    rewrite Heq, Hperm.
    replace (length batch) with (length lengths)
      by (unfold lengths; by rewrite length_fmap).
    by rewrite fmap_lookup_total_seq.
Qed.

End collate_reading.

Ltac channels_by_cases :=
  intros ? ? Hx%list_elem_of_In Hy%list_elem_of_In; simpl in Hx, Hy;
  repeat match goal with
         | H : _ ∨ _ |- _ => destruct H
         | H : False |- _ => destruct H
         end; subst; reflexivity.

Lemma batch_no_frame_channels :
  Batch.consistent_channels Samples.batch_no_frame.
Proof. channels_by_cases. Qed.

Lemma disk_batch_channels : Batch.consistent_channels Samples.disk_batch.
Proof. channels_by_cases. Qed.

Lemma collate_output_shapes_witness :
  ∃ out,
    Fixture.collate Sort.stable_sort 2 Fixture.batch_3_7_5 = Ok out
    ∧ size0 (TextMelCollate.text_padded out) = 3
    ∧ length (TextMelCollate.input_lengths out) = 3
    ∧ dim0 (TextMelCollate.mel_padded out) = 3
    ∧ (∀ x0, Fixture.batch_3_7_5 !! 0 = Some x0 →
         dim1 (TextMelCollate.mel_padded out) = size0 x0.2)
    ∧ size0 (TextMelCollate.gate_padded out) = 3
    ∧ size1 (TextMelCollate.gate_padded out)
      = dim2 (TextMelCollate.mel_padded out)
    ∧ length (TextMelCollate.output_lengths out) = 3.
Proof.
  apply (collate_output_shapes 0%Z 1%Z Fixture.to_float32 true
           Sort.stable_sort (λ _, (-1)%Z) 2%Z Fixture.batch_3_7_5
           stable_sort_spec).
  - discriminate.
  - lia.
  - exact batch_3_7_5_channels.
Defined.

Lemma collate_rows_are_padded_examples_witness :
  ∃ out,
    Fixture.collate Sort.stable_sort 2 Fixture.batch_3_7_5 = Ok out
    ∧ ∀ i id x,
        Batch.sorted_ids Sort.stable_sort Fixture.batch_3_7_5 !! i = Some id →
        Fixture.batch_3_7_5 !! id = Some x →
        row (TextMelCollate.text_padded out) i
        = x.1 ++ replicate (size1 (TextMelCollate.text_padded out)
                            - length x.1) 0%Z
        ∧ ∀ c, c < size0 x.2 →
            item3 (TextMelCollate.mel_padded out) i c
              <$> seq 0 (dim2 (TextMelCollate.mel_padded out))
            = (Fixture.to_float32 <$> row x.2 c)
              ++ replicate (dim2 (TextMelCollate.mel_padded out) - size1 x.2)
                   0%Z.
Proof.
  apply (collate_rows_are_padded_examples 0%Z 1%Z Fixture.to_float32 true
           Sort.stable_sort (λ _, (-1)%Z) 2%Z Fixture.batch_3_7_5
           stable_sort_spec).
  - discriminate.
  - lia.
  - exact batch_3_7_5_channels.
Defined.

(** A spectrogram loaded in [float64] comes out rounded to [float32]:
    16777217 is stored as 16777216 and 16777219 as 16777220. *)
Example collate_rounds_to_float32 :
  row Samples.mel_float64 0 = [16777217; 16777218; 16777219]%Z
  ∧ (λ out, item3 (TextMelCollate.mel_padded out) 0 0
              <$> seq 0 (dim2 (TextMelCollate.mel_padded out)))
      <$> Fixture.collate Sort.stable_sort 1 Samples.batch_float64
    = Ok [16777216; 16777218; 16777220]%Z.
Proof. split; vm_compute; reflexivity. Qed.


Lemma collate_lengths_are_permutations_witness :
  ∃ out,
    Fixture.collate Sort.stable_sort 2 Fixture.batch_3_7_5 = Ok out
    ∧ TextMelCollate.input_lengths out ≡ₚ [3; 7; 5]%Z
    ∧ TextMelCollate.output_lengths out ≡ₚ [3; 5; 3]%Z.
Proof.
  apply (collate_lengths_are_permutations 0%Z 1%Z Fixture.to_float32 true
           Sort.stable_sort (λ _, (-1)%Z) 2%Z Fixture.batch_3_7_5
           stable_sort_spec).
  - discriminate.
  - lia.
  - exact batch_3_7_5_channels.
Defined.


(** The row of the example without frames, of padded length 4. *)
Example stop_flags_no_frame :
  (λ out, row (TextMelCollate.gate_padded out) 1)
    <$> Fixture.collate Sort.stable_sort 2 Samples.batch_no_frame
  = Ok [0; 0; 0; 1]%Z.
Proof. vm_compute. reflexivity. Qed.

(** ** From the loader to the collator *)

(** What the text loader yields when it reads precomputed spectrograms
    has the configured number of channels. *)
Lemma Text_item_channels {F : Type} (rt : runtime F)
    (self : TextMelLoader.instance F) (index : Z) (x : list Z * tensor2 F) :
  debug rt = true →
  TextMelLoader.load_mel_from_disk self = true →
  TextMelLoader.__getitem__ rt self index = Ok x →
  Z.of_nat (size0 x.2) = Layers.n_mel_channels (TextMelLoader.stft self).
Proof.
  intros Hdebug Hdisk. rewrite Text_getitem_reaches_method.
  destruct (getitem _ index) as [entry | e]; simpl; [|discriminate].
  unfold TextMelLoader.get_mel_text_pair.
  destruct (getitem entry 0) as [audiopath | e]; simpl; [|discriminate].
  destruct (getitem entry 1) as [text | e]; simpl; [|discriminate].
  destruct (TextMelLoader.get_text rt self text) as [symbols | e]; simpl;
    [|discriminate].
  unfold TextMelLoader.get_mel. rewrite Hdisk, Hdebug. simpl.
  destruct (np_load rt audiopath) as [melspec | e]; simpl; [|discriminate].
  case_bool_decide as Hc; simpl; [|discriminate].
  intros [= <-]. exact Hc.
Qed.

(** X12: any non-empty batch of examples yielded by one text loader that
    reads precomputed spectrograms, with assertions executed, collates for
    every positive frames-per-step factor, and the padded targets have the
    configured number of mel channels. *)
Theorem loader_batches_collate {F : Type} (rt : runtime F)
    (self : TextMelLoader.instance F) (zero one : F)
    (to_float32 : F → F)
    (torch_sort : list Z → list Z * list nat) (uninitialized : nat → Z)
    (n_frames_per_step : Z) (batch : list (list Z * tensor2 F)) :
  debug rt = true →
  TextMelLoader.load_mel_from_disk self = true →
  Sort.torch_sort_spec torch_sort →
  batch ≠ [] →
  (0 < n_frames_per_step)%Z →
  (∀ x, x ∈ batch →
     ∃ index, TextMelLoader.__getitem__ rt self index = Ok x) →
  ∃ out,
    TextMelCollate.__call__ zero one to_float32 (debug rt) torch_sort uninitialized
      n_frames_per_step batch = Ok out
    ∧ Z.of_nat (dim1 (TextMelCollate.mel_padded out))
      = Layers.n_mel_channels (TextMelLoader.stft self).
Proof.
  intros Hdebug Hdisk Hsort Hne Hstep Hitems.
  assert (Hchan : ∀ x, x ∈ batch →
            Z.of_nat (size0 x.2)
            = Layers.n_mel_channels (TextMelLoader.stft self)).
  { intros x Hx. destruct (Hitems x Hx) as [index Hindex].
    by apply (Text_item_channels rt self index). }
  assert (Hcons : Batch.consistent_channels batch).
  { intros x y Hx Hy. pose proof (Hchan x Hx). pose proof (Hchan y Hy). lia. }
  destruct (call_spec zero one to_float32 (debug rt) torch_sort uninitialized
              n_frames_per_step batch Hsort Hne Hstep Hcons)
    as (out & Hcall & _ & _ & _ & _ & Hd1 & _).
  exists out. split; [done |].
  destruct batch as [|x0 rest]; [done |].
  rewrite (Hd1 x0) by apply list_elem_of_here.
  apply Hchan, list_elem_of_here.
Qed.

Lemma loader_batches_collate_witness :
  ∃ out,
    Fixture.collate Sort.stable_sort 2 Samples.disk_batch = Ok out
    ∧ Z.of_nat (dim1 (TextMelCollate.mel_padded out)) = 2%Z.
Proof.
  apply (loader_batches_collate (Fixture.world true) Samples.disk_loader
           0%Z 1%Z Fixture.to_float32 Sort.stable_sort (λ _, (-1)%Z) 2%Z
           Samples.disk_batch
           eq_refl eq_refl stable_sort_spec).
  - discriminate.
  - lia.
  - intros x Hx%list_elem_of_In. simpl in Hx.
    destruct Hx as [<- | [<- | []]].
    + exists 0%Z. reflexivity.
    + exists 1%Z. reflexivity.
Defined.

(** ** Error and edge behaviour of the collator *)

(** X13: an empty batch makes the collator raise [IndexError], at
    [input_lengths[0]]. *)
Theorem collate_empty_batch_raises_IndexError {F : Type} (zero one : F)
    (to_float32 : F → F)
    (debug : bool) (torch_sort : list Z → list Z * list nat)
    (uninitialized : nat → Z) (n_frames_per_step : Z) :
  Sort.torch_sort_spec torch_sort →
  TextMelCollate.__call__ zero one to_float32 debug torch_sort uninitialized
    n_frames_per_step [] = Raise IndexError.
Proof.
  intros Hspec. destruct (Hspec []) as (Hperm & Hval & _).
  simpl in Hperm. apply Permutation_nil_r in Hperm.
  rewrite Hperm in Hval. simpl in Hval.
  unfold TextMelCollate.__call__.
  change ((λ x : list Z * tensor2 F, Z.of_nat (length x.1)) <$> [])
    with (@nil Z).
  rewrite (surjective_pairing (torch_sort [])). cbv beta iota.
  rewrite Hval. reflexivity.
Qed.

Lemma collate_empty_batch_witness :
  Fixture.collate Sort.stable_sort 2 [] = Raise IndexError.
Proof.
  apply (collate_empty_batch_raises_IndexError 0%Z 1%Z Fixture.to_float32 true
           Sort.stable_sort (λ _, (-1)%Z) 2%Z stable_sort_spec).
Defined.

Lemma round_up_is_multiple (m n : Z) :
  n ≠ 0%Z → ((m + (n - m `mod` n)) `mod` n = 0)%Z.
Proof.
  intros Hn. pose proof (Z.div_mod m n Hn).
  replace (m + (n - m `mod` n))%Z with ((m `div` n + 1) * n)%Z by lia.
  by apply Z.mod_mul.
Qed.

(** X14: the assertion inside the rounding step never fails: whatever
    the inputs, the collator behaves the same with assertions executed
    and with assertions compiled out. *)
Theorem collate_assertion_never_fails {F : Type} (zero one : F)
    (to_float32 : F → F)
    (torch_sort : list Z → list Z * list nat) (uninitialized : nat → Z)
    (n_frames_per_step : Z) (batch : list (list Z * tensor2 F)) :
  TextMelCollate.__call__ zero one to_float32 true torch_sort uninitialized
    n_frames_per_step batch
  = TextMelCollate.__call__ zero one to_float32 false torch_sort uninitialized
      n_frames_per_step batch.
Proof.
  unfold TextMelCollate.__call__.
  destruct (torch_sort _) as [vs ids].
  destruct (getitem vs 0) as [v | e]; cbn [mbind result_bind];
    [|reflexivity].
  destruct (TextMelCollate.tensor_size v) as [w | e];
    cbn [mbind result_bind]; [|reflexivity].
  destruct (TextMelCollate.for_range _ 0 (length ids) (zeros2 _ _ _))
    as [tp | e]; cbn [mbind result_bind]; [|reflexivity].
  destruct (getitem batch 0) as [x0 | e]; cbn [mbind result_bind];
    [|reflexivity].
  destruct (TextMelCollate.py_max _) as [m | e]; cbn [mbind result_bind];
    [|reflexivity].
  destruct (decide (n_frames_per_step = 0%Z)) as [-> | Hn]; [reflexivity |].
  assert (Hmod : ∀ a, TextMelCollate.py_mod a n_frames_per_step
                      = Ok (a `mod` n_frames_per_step)%Z).
  { intros a. unfold TextMelCollate.py_mod. by rewrite decide_False. }
  rewrite Hmod. cbn [mbind result_bind].
  destruct (decide (m `mod` n_frames_per_step ≠ 0)%Z); [|reflexivity].
  rewrite Hmod. cbn [mbind result_bind].
  rewrite bool_decide_eq_true_2 by by apply round_up_is_multiple.
  reflexivity.
Qed.

Lemma for_range_related {St : Type} (body : St → nat → result St)
    (R : nat → St → St → Prop) (n i : nat) (s1 s2 : St) :
  R i s1 s2 →
  (∀ k s1 s2, i ≤ k < i + n → R k s1 s2 →
     match body s1 k, body s2 k with
     | Ok a, Ok b => R (S k) a b
     | Raise e1, Raise e2 => e1 = e2
     | _, _ => False
     end) →
  match TextMelCollate.for_range body i n s1,
        TextMelCollate.for_range body i n s2 with
  | Ok a, Ok b => R (i + n) a b
  | Raise e1, Raise e2 => e1 = e2
  | _, _ => False
  end.
Proof.
  revert i s1 s2. induction n as [|n IH]; intros i s1 s2 Hs Hstep; simpl.
  - by rewrite Nat.add_0_r.
  - pose proof (Hstep i s1 s2 ltac:(lia) Hs) as Hi.
    destruct (body s1 i) as [a | e1], (body s2 i) as [b | e2]; simpl;
      try done.
    replace (i + S n) with (S i + n) by lia.
    apply IH; [done |]. intros k t1 t2 Hk. apply Hstep. lia.
Qed.

(** The second loop of [__call__] started on two [output_lengths] arrays
    of the right length ends the same way. *)
Lemma mel_loop_ignores_lengths {F : Type} (one : F)
    (to_float32 : F → F) (ids : list nat)
    (batch : list (list Z * tensor2 F)) (mp : tensor3 F) (gp : tensor2 F)
    (ol1 ol2 : list Z) :
  length ol1 = length ids → length ol2 = length ids →
  TextMelCollate.for_range
    (λ '(mel_padded, gate_padded, output_lengths) i,
       id ← getitem ids (Z.of_nat i);
       x ← getitem batch (Z.of_nat id);
       mel_padded ← TextMelCollate.assign_mel to_float32 mel_padded i x.2;
       gate_padded ← TextMelCollate.assign_gate one gate_padded i
                       (Z.of_nat (size1 x.2) - 1);
       output_lengths ← TextMelCollate.assign_length output_lengths i
                          (Z.of_nat (size1 x.2));
       Ok (mel_padded, gate_padded, output_lengths))
    0 (length ids) (mp, gp, ol1)
  = TextMelCollate.for_range
      (λ '(mel_padded, gate_padded, output_lengths) i,
         id ← getitem ids (Z.of_nat i);
         x ← getitem batch (Z.of_nat id);
         mel_padded ← TextMelCollate.assign_mel to_float32 mel_padded i x.2;
         gate_padded ← TextMelCollate.assign_gate one gate_padded i
                         (Z.of_nat (size1 x.2) - 1);
         output_lengths ← TextMelCollate.assign_length output_lengths i
                            (Z.of_nat (size1 x.2));
         Ok (mel_padded, gate_padded, output_lengths))
      0 (length ids) (mp, gp, ol2).
Proof.
  intros Hl1 Hl2.
  lazymatch goal with
  | |- TextMelCollate.for_range ?b _ _ _ = _ =>
      pose proof (for_range_related b
        (λ (k : nat) (s1 s2 : tensor3 F * tensor2 F * list Z),
           s1.1 = s2.1 ∧ length s1.2 = length ids
           ∧ length s2.2 = length ids
           ∧ ∀ r, r < k → s1.2 !! r = s2.2 !! r)
        (length ids) 0 (mp, gp, ol1) (mp, gp, ol2)) as Hrel
  end.
  simpl in Hrel.
  lazymatch type of Hrel with
  | ?P0 → ?Pstep → _ =>
      assert (H0 : P0) by (split_and!; try done; intros; lia);
      assert (Hstep : Pstep); [|specialize (Hrel H0 Hstep)]
  end.
  { intros k [[mp1 gp1] o1] [[mp2 gp2] o2] Hk (Heq & Ho1 & Ho2 & Hlk).
    simpl in *. injection Heq as -> ->.
    destruct (getitem ids (Z.of_nat k)) as [id | e];
      cbn [mbind result_bind]; [|done].
    destruct (getitem batch (Z.of_nat id)) as [x | e];
      cbn [mbind result_bind]; [|done].
    destruct (TextMelCollate.assign_mel to_float32 mp2 k x.2) as [mp' | e];
      cbn [mbind result_bind]; [|done].
    destruct (TextMelCollate.assign_gate one gp2 k _) as [gp' | e];
      cbn [mbind result_bind]; [|done].
    unfold TextMelCollate.assign_length. rewrite Ho1, Ho2.
    destruct (decide (k < length ids)); cbn [mbind result_bind]; [|done].
    simpl. rewrite !length_insert. split_and!; try done.
    intros r Hr. destruct (decide (r = k)) as [-> | Hne].
    - by rewrite !list_lookup_insert_eq by lia.
    - rewrite !list_lookup_insert_ne by done. apply Hlk. lia. }
  destruct (TextMelCollate.for_range _ 0 (length ids) (mp, gp, ol1))
    as [[[mp1 gp1] o1] | e1],
    (TextMelCollate.for_range _ 0 (length ids) (mp, gp, ol2))
    as [[[mp2 gp2] o2] | e2]; try done.
  - destruct Hrel as (Heq & Ho1 & Ho2 & Hlk). simpl in *.
    injection Heq as -> ->. do 2 f_equal.
    apply list_eq. intros r. destruct (decide (r < length ids)).
    + by apply Hlk.
    + by rewrite !lookup_ge_None_2 by lia.
  - by subst.
Qed.

(** X15: nothing of what the freshly allocated [output_lengths] held
    reaches the result: every slot is overwritten, so two runs that differ
    only in that memory return the same. *)
Theorem collate_ignores_uninitialized_memory {F : Type} (zero one : F)
    (to_float32 : F → F)
    (debug : bool) (torch_sort : list Z → list Z * list nat)
    (uninitialized1 uninitialized2 : nat → Z)
    (n_frames_per_step : Z) (batch : list (list Z * tensor2 F)) :
  Sort.torch_sort_spec torch_sort →
  TextMelCollate.__call__ zero one to_float32 debug torch_sort uninitialized1
    n_frames_per_step batch
  = TextMelCollate.__call__ zero one to_float32 debug torch_sort uninitialized2
      n_frames_per_step batch.
Proof.
  intros Hspec. pose proof (ids_length torch_sort batch Hspec) as Hlen.
  unfold Batch.sorted_ids, Batch.input_lengths_of in Hlen.
  unfold TextMelCollate.__call__.
  destruct (torch_sort _) as [vs ids]. simpl in Hlen.
  destruct (getitem vs 0) as [v | e]; cbn [mbind result_bind];
    [|reflexivity].
  destruct (TextMelCollate.tensor_size v) as [w | e];
    cbn [mbind result_bind]; [|reflexivity].
  destruct (TextMelCollate.for_range _ 0 (length ids) (zeros2 _ _ _))
    as [tp | e]; cbn [mbind result_bind]; [|reflexivity].
  destruct (getitem batch 0) as [x0 | e]; cbn [mbind result_bind];
    [|reflexivity].
  destruct (TextMelCollate.py_max _) as [m | e]; cbn [mbind result_bind];
    [|reflexivity].
  destruct (TextMelCollate.py_mod m n_frames_per_step) as [r | e];
    cbn [mbind result_bind]; [|reflexivity].
  destruct (decide (r ≠ 0)%Z).
  1: destruct (py_assert _ _ _) as [[] | e]; cbn [mbind result_bind];
       [|reflexivity].
  2: cbn [mbind result_bind].
  all: destruct (TextMelCollate.tensor_size _) as [frames | e];
    cbn [mbind result_bind]; [|reflexivity].
  all: f_equal; apply mel_loop_ignores_lengths;
    by rewrite length_fmap, length_seq.
Qed.

Lemma collate_ignores_uninitialized_memory_witness :
  TextMelCollate.__call__ 0%Z 1%Z Fixture.to_float32 true Sort.stable_sort (λ _, (-1)%Z) 2%Z
    Fixture.batch_3_7_5
  = TextMelCollate.__call__ 0%Z 1%Z Fixture.to_float32 true Sort.stable_sort (λ i, Z.of_nat i)
      2%Z Fixture.batch_3_7_5.
Proof.
  apply (collate_ignores_uninitialized_memory 0%Z 1%Z Fixture.to_float32 true
           Sort.stable_sort (λ _, (-1)%Z) (λ i, Z.of_nat i) 2%Z Fixture.batch_3_7_5
           stable_sort_spec).
Defined.

Lemma tensor_size_of_nat (n : nat) :
  TextMelCollate.tensor_size (Z.of_nat n) = Ok n.
Proof.
  unfold TextMelCollate.tensor_size.
  destruct (decide (Z.of_nat n < 0)%Z); [lia |]. by rewrite Nat2Z.id.
Qed.

Lemma for_range_raises {St : Type} (body : St → nat → result St)
    (P : nat → St → Prop) (e : exn) (n i : nat) (s : St) :
  P i s →
  (∀ k s, i ≤ k < i + n → P k s →
     (∃ s', body s k = Ok s' ∧ P (S k) s') ∨ body s k = Raise e) →
  (∃ k, i ≤ k < i + n ∧ ∀ s, P k s → body s k = Raise e) →
  TextMelCollate.for_range body i n s = Raise e.
Proof.
  revert i s. induction n as [|n IH]; intros i s Hs Hstep (k & Hk & Hbad).
  - lia.
  - simpl. destruct (Hstep i s ltac:(lia) Hs) as [(s' & Hbody & Hs') | Hbody];
      rewrite Hbody; [|reflexivity].
    simpl. destruct (decide (k = i)) as [-> | Hne].
    + rewrite (Hbad s Hs) in Hbody. discriminate.
    + apply IH; [done | |].
      * intros k' t Hk'. apply Hstep. lia.
      * exists k. split; [lia | done].
Qed.

Section collate_failures.
Context {F : Type}.
Variables (zero one : F) (to_float32 : F → F) (debug : bool).
Variable torch_sort : list Z → list Z * list nat.
Variable uninitialized : nat → Z.
Variable batch : list (list Z * tensor2 F).
Hypothesis sort_spec : Sort.torch_sort_spec torch_sort.
Hypothesis nonempty : batch ≠ [].

(** The first sorted value is the largest input length. *)
Lemma sorted_values_head :
  Batch.sorted_values torch_sort batch !! 0
  = Some (Z.of_nat (Batch.max_input_len batch)).
Proof.
  assert (Hlen : 0 < length batch) by (destruct batch; [done | simpl; lia]).
  destruct (ids_lookup torch_sort batch sort_spec 0 Hlen)
    as (id0 & x0 & Hid0 & Hx0).
  pose proof (values_lookup torch_sort batch sort_spec 0 id0 x0 Hid0 Hx0)
    as Hv0.
  rewrite Hv0. do 2 f_equal. apply Nat.le_antisymm.
  - apply text_fits, list_elem_of_lookup. eauto.
  - assert (Hmax : Batch.max_input_len batch
                   ∈ (λ x : list Z * tensor2 F, length x.1) <$> batch).
    { apply max_list_elem_of. by destruct batch. }
    apply list_elem_of_fmap in Hmax as (y & Hy & Hin).
    apply list_elem_of_lookup in Hin as [j Hj].
    destruct (ids_cover torch_sort batch sort_spec j) as [i Hi];
      [by eapply lookup_lt_Some |].
    pose proof (values_lookup torch_sort batch sort_spec i j y Hi Hj) as Hvi.
    destruct i as [|i].
    + rewrite Hv0 in Hvi. injection Hvi as Hvi. lia.
    + pose proof (values_descending torch_sort batch sort_spec 0 (S i) _ _
                    ltac:(lia) Hv0 Hvi). lia.
Qed.

(** Up to the modulo by the frames-per-step factor [__call__] cannot
    fail on a non-empty batch: what is left to run is the rounding and the
    second loop. *)
Lemma call_after_text (n_frames_per_step : Z) :
  ∃ tp x0,
    batch !! 0 = Some x0
    ∧ TextMelCollate.__call__ zero one to_float32 debug torch_sort uninitialized
        n_frames_per_step batch
      = (r ← TextMelCollate.py_mod
               (Z.of_nat (Batch.max_target_len batch)) n_frames_per_step;
         max_target_len ←
           (if decide (r ≠ 0)%Z then
              _ ← py_assert debug
                    (r' ← TextMelCollate.py_mod
                            (Z.of_nat (Batch.max_target_len batch)
                             + (n_frames_per_step - r)) n_frames_per_step;
                     Ok (bool_decide (r' = 0)%Z))
                    (Ok "");
              Ok (Z.of_nat (Batch.max_target_len batch)
                  + (n_frames_per_step - r))%Z
            else Ok (Z.of_nat (Batch.max_target_len batch)));
         frames ← TextMelCollate.tensor_size max_target_len;
         '(mel_padded, gate_padded, output_lengths) ←
           TextMelCollate.for_range
             (λ '(mel_padded, gate_padded, output_lengths) i,
                id ← getitem (Batch.sorted_ids torch_sort batch) (Z.of_nat i);
                x ← getitem batch (Z.of_nat id);
                mel_padded ← TextMelCollate.assign_mel to_float32 mel_padded i x.2;
                gate_padded ← TextMelCollate.assign_gate one gate_padded i
                                (Z.of_nat (size1 x.2) - 1);
                output_lengths ←
                  TextMelCollate.assign_length output_lengths i
                    (Z.of_nat (size1 x.2));
                Ok (mel_padded, gate_padded, output_lengths))
             0 (length (Batch.sorted_ids torch_sort batch))
             (zeros3 zero (length batch) (size0 x0.2) frames,
              zeros2 zero (length batch) frames,
              uninitialized <$> seq 0 (length batch));
         Ok (TextMelCollate.Build_output tp
               (Batch.sorted_values torch_sort batch)
               mel_padded gate_padded output_lengths)).
Proof.
  assert (Hx0 : ∃ x0, batch !! 0 = Some x0).
  { destruct batch as [|x0 ?]; [done | by exists x0]. }
  destruct Hx0 as [x0 Hx0].
  unfold TextMelCollate.__call__.
  lazymatch goal with
  | |- context [torch_sort ?l] => rewrite (surjective_pairing (torch_sort l))
  end.
  cbv beta iota.
  change (torch_sort _).1 with (Batch.sorted_values torch_sort batch).
  change (torch_sort _).2 with (Batch.sorted_ids torch_sort batch).
  rewrite (getitem_nat _ 0 _ sorted_values_head
           : getitem (Batch.sorted_values torch_sort batch) 0 = Ok _).
  cbn [mbind result_bind]. rewrite tensor_size_of_nat.
  cbn [mbind result_bind].
  lazymatch goal with
  | |- context [TextMelCollate.for_range ?b 0 ?n (zeros2 ?z ?r ?w)] =>
      destruct (for_range_invariant b (Batch.text_invariant torch_sort batch)
                  n 0 (zeros2 z r w)) as (tp & Htp & _)
  end.
  { split; [done |]. split; [done |]. intros r c. unfold Batch.text_entry.
    by rewrite decide_False by lia. }
  { intros k tp Hk Hinv.
    by apply (text_step torch_sort batch sort_spec). }
  rewrite Htp. cbn [mbind result_bind].
  rewrite (getitem_nat batch 0 x0 Hx0 : getitem batch 0 = Ok x0).
  cbn [mbind result_bind].
  assert (Hmax : TextMelCollate.py_max
                   ((λ x : list Z * tensor2 F, Z.of_nat (size1 x.2))
                      <$> batch)
                 = Ok (Z.of_nat (Batch.max_target_len batch))).
  { unfold Batch.max_target_len. rewrite <-py_max_lengths.
    - by rewrite <-list_fmap_compose.
    - by destruct batch. }
  rewrite Hmax. cbn [mbind result_bind].
  exists tp, x0. split; [done | reflexivity].
Qed.

(** X16: with a frames-per-step factor of zero the collator raises
    [ZeroDivisionError] on every non-empty batch. *)
Theorem collate_zero_step_raises_ZeroDivisionError :
  TextMelCollate.__call__ zero one to_float32 debug torch_sort uninitialized 0 batch
  = Raise ZeroDivisionError.
Proof.
  destruct (call_after_text 0) as (tp & x0 & _ & ->). reflexivity.
Qed.
(** X17: when some example has a number of mel channels that is neither
    that of the first example nor 1, copying its spectrogram into the
    padded targets fails and the collator raises [RuntimeError]. *)
Theorem collate_channel_mismatch_raises_RuntimeError
    (n_frames_per_step : Z) (x0 bad : list Z * tensor2 F) :
  (0 < n_frames_per_step)%Z →
  batch !! 0 = Some x0 →
  bad ∈ batch →
  size0 bad.2 ≠ size0 x0.2 →
  size0 bad.2 ≠ 1 →
  TextMelCollate.__call__ zero one to_float32 debug torch_sort uninitialized
    n_frames_per_step batch = Raise RuntimeError.
Proof.
  intros Hstep Hfirst Hbad Hne0 Hne1.
  destruct (call_after_text n_frames_per_step) as (tp & x0' & Hx0' & ->).
  assert (x0' = x0) as -> by congruence.
  set (m := Z.of_nat (Batch.max_target_len batch)).
  assert (Hmod : ∀ a, TextMelCollate.py_mod a n_frames_per_step
                      = Ok (a `mod` n_frames_per_step)%Z).
  { intros a. unfold TextMelCollate.py_mod. by rewrite decide_False by lia. }
  rewrite Hmod. cbn [mbind result_bind].
  destruct (round_up_spec m n_frames_per_step ltac:(lia) Hstep)
    as (Hdiv & Hge & Hlt).
  set (t := if decide (m `mod` n_frames_per_step ≠ 0)%Z
            then (m + (n_frames_per_step - m `mod` n_frames_per_step))%Z
            else m) in *.
  assert (Hround :
    (if decide (m `mod` n_frames_per_step ≠ 0)%Z
     then
       py_assert debug
         (TextMelCollate.py_mod
            (m + (n_frames_per_step - m `mod` n_frames_per_step))
            n_frames_per_step
          ≫= λ r' : Z, Ok (bool_decide (r' = 0%Z)))
         (Ok "")
       ≫= λ _ : (),
            Ok (m + (n_frames_per_step - m `mod` n_frames_per_step))%Z
     else Ok m) = Ok (Z.of_nat (Z.to_nat t))).
  { rewrite Z2Nat.id by lia. subst t.
    destruct (decide (m `mod` n_frames_per_step ≠ 0)%Z); [|done].
    rewrite Hmod. cbn [mbind result_bind].
    rewrite bool_decide_eq_true_2 by done.
    unfold py_assert. by destruct debug. }
  rewrite Hround. cbn [mbind result_bind].
  rewrite tensor_size_of_nat. cbn [mbind result_bind].
  set (T := Z.to_nat t). set (C := size0 x0.2).
  pose proof (ids_length torch_sort batch sort_spec) as Hids.
  lazymatch goal with
  | |- context [TextMelCollate.for_range ?b 0 ?n ?s0] =>
      rewrite (for_range_raises b
                 (λ (k : nat) (s : tensor3 F * tensor2 F * list Z),
                    dim0 s.1.1 = length batch ∧ dim1 s.1.1 = C
                    ∧ dim2 s.1.1 = T ∧ size0 s.1.2 = length batch
                    ∧ length s.2 = length batch)
                 RuntimeError n 0 s0)
  end.
  - reflexivity.
  - simpl. rewrite length_fmap, length_seq. done.
  - intros k [[mp gp] ol] Hk (Hd0 & Hd1 & Hd2 & Hg0 & Hol). simpl in *.
    rewrite Hids in Hk.
    destruct (source_Some torch_sort batch sort_spec k)
      as (id & x & Hid & Hx & _); [lia |].
    assert (Hin : x ∈ batch) by (apply list_elem_of_lookup; eauto).
    rewrite (getitem_nat _ _ _ Hid). cbn [mbind result_bind].
    rewrite (getitem_nat _ _ _ Hx). cbn [mbind result_bind].
    unfold TextMelCollate.assign_mel.
    destruct (decide (k < dim0 mp)) as [_ | ?]; [|lia].
    rewrite Hd1, Hd2. rewrite Nat.min_l
      by (pose proof (target_fits batch x Hin); subst T m; lia).
    assert (Hexp : ∀ a, expandable a a = true).
    { intros a. unfold expandable. by rewrite bool_decide_eq_true_2. }
    rewrite Hexp, andb_true_r.
    destruct (expandable (size0 x.2) C); [left | right; reflexivity].
    cbn [mbind result_bind].
    unfold TextMelCollate.assign_gate.
    destruct (decide (k < size0 gp)) as [_ | ?]; [|lia].
    cbn [mbind result_bind].
    unfold TextMelCollate.assign_length.
    destruct (decide (k < length ol)) as [_ | ?]; [|lia].
    cbn [mbind result_bind].
    eexists. split; [reflexivity |]. simpl.
    by rewrite length_insert.
  - apply list_elem_of_lookup in Hbad as [j Hj].
    destruct (ids_cover torch_sort batch sort_spec j) as [k Hk];
      [by eapply lookup_lt_Some |].
    exists k. split.
    { apply lookup_lt_Some in Hk. lia. }
    intros [[mp gp] ol] (Hd0 & Hd1 & Hd2 & Hg0 & Hol). simpl in *.
    rewrite (getitem_nat _ _ _ Hk). cbn [mbind result_bind].
    rewrite (getitem_nat _ _ _ Hj). cbn [mbind result_bind].
    unfold TextMelCollate.assign_mel.
    destruct (decide (k < dim0 mp)) as [_ | Hge'].
    + rewrite Hd1. unfold expandable at 1.
      rewrite !bool_decide_eq_false_2 by done. reflexivity.
    + apply lookup_lt_Some in Hk. lia.
Qed.
End collate_failures.

Lemma collate_zero_step_witness :
  Fixture.collate Sort.stable_sort 0 Fixture.batch_3_7_5
  = Raise ZeroDivisionError.
Proof.
  apply (collate_zero_step_raises_ZeroDivisionError 0%Z 1%Z Fixture.to_float32 true
           Sort.stable_sort (λ _, (-1)%Z) Fixture.batch_3_7_5
           stable_sort_spec).
  discriminate.
Defined.

Lemma collate_channel_mismatch_witness :
  Fixture.collate Sort.stable_sort 2 Samples.batch_mixed_channels
  = Raise RuntimeError.
Proof.
  apply (collate_channel_mismatch_raises_RuntimeError 0%Z 1%Z Fixture.to_float32 true
           Sort.stable_sort (λ _, (-1)%Z) Samples.batch_mixed_channels
           stable_sort_spec ltac:(discriminate) 2%Z
           ([1; 2; 3]%Z, Fixture.mel_2x3) ([4; 5]%Z, Samples.mel_3x3)).
  - lia.
  - reflexivity.
  - apply list_elem_of_further, list_elem_of_here.
  - simpl. lia.
  - simpl. lia.
Defined.

(** X19: in every row of the stop flags, once a flag is 1 every later
    flag of the row is 1, and the last flag of the row is 1: each example,
    whatever its length, ends with a stop. *)
Theorem stop_flags_stay_set {F : Type} (zero one : F)
    (to_float32 : F → F) (debug : bool)
    (torch_sort : list Z → list Z * list nat) (uninitialized : nat → Z)
    (n_frames_per_step : Z) (batch : list (list Z * tensor2 F)) :
  Sort.torch_sort_spec torch_sort →
  batch ≠ [] →
  (0 < n_frames_per_step)%Z →
  Batch.consistent_channels batch →
  ∃ out,
    TextMelCollate.__call__ zero one to_float32 debug torch_sort uninitialized
      n_frames_per_step batch = Ok out
    ∧ ∀ i, i < length batch →
        (∀ t1 t2, t1 ≤ t2 → t2 < size1 (TextMelCollate.gate_padded out) →
           item2 (TextMelCollate.gate_padded out) i t1 = one →
           item2 (TextMelCollate.gate_padded out) i t2 = one)
        ∧ (0 < size1 (TextMelCollate.gate_padded out) →
           item2 (TextMelCollate.gate_padded out) i
             (size1 (TextMelCollate.gate_padded out) - 1) = one).
Proof.
  intros Hsort Hne Hstep Hchan.
  destruct (call_spec zero one to_float32 debug torch_sort uninitialized
              n_frames_per_step batch Hsort Hne Hstep Hchan)
    as (out & Hcall & _ & _ & _ & _ & _ & _ & Hge & _ & _ & Hg1 & _ & Hord).
  exists out. split; [done |]. intros i Hi.
  destruct (ids_lookup torch_sort batch Hsort i Hi) as (id & x & Hid & Hx).
  destruct (Hord i id x Hid Hx) as (_ & _ & _ & Hgate & _).
  assert (Hfit : size1 x.2 ≤ size1 (TextMelCollate.gate_padded out)).
  { rewrite Hg1. etrans; [|exact Hge].
    apply target_fits, list_elem_of_lookup. eauto. }
  set (T := size1 (TextMelCollate.gate_padded out)) in *.
  set (start := TextMelCollate.slice_start (Z.of_nat (size1 x.2) - 1) T)
    in *.
  split.
  - intros t1 t2 Hle Ht2 Hone.
    rewrite (Hgate t2 Ht2). rewrite (Hgate t1 ltac:(lia)) in Hone.
    destruct (decide (start ≤ t1)) as [Hs | Hs].
    + by rewrite decide_True by lia.
    + destruct (decide (start ≤ t2)); [reflexivity | exact Hone].
  - intros HT. rewrite (Hgate (T - 1) ltac:(lia)).
    rewrite decide_True; [reflexivity |].
    unfold start, TextMelCollate.slice_start.
    destruct (decide (Z.of_nat (size1 x.2) - 1 < 0)%Z); lia.
Qed.

Lemma stop_flags_stay_set_witness :
  ∃ out,
    Fixture.collate Sort.stable_sort 2 Samples.batch_no_frame = Ok out
    ∧ ∀ i, i < 2 →
        (∀ t1 t2, t1 ≤ t2 → t2 < size1 (TextMelCollate.gate_padded out) →
           item2 (TextMelCollate.gate_padded out) i t1 = 1%Z →
           item2 (TextMelCollate.gate_padded out) i t2 = 1%Z)
        ∧ (0 < size1 (TextMelCollate.gate_padded out) →
           item2 (TextMelCollate.gate_padded out) i
             (size1 (TextMelCollate.gate_padded out) - 1) = 1%Z).
Proof.
  apply (stop_flags_stay_set 0%Z 1%Z Fixture.to_float32 true
           Sort.stable_sort (λ _, (-1)%Z) 2%Z Samples.batch_no_frame
           stable_sort_spec).
  - discriminate.
  - lia.
  - exact batch_no_frame_channels.
Defined.

(** ** Batches without two examples of the same input length *)

Section collate_without_ties.
Context {F : Type}.
Variables (zero one : F) (to_float32 : F → F) (debug : bool).
Variables torch_sort torch_sort' : list Z → list Z * list nat.
Variable uninitialized : nat → Z.
Variable n_frames_per_step : Z.
Variable batch : list (list Z * tensor2 F).
Hypothesis sort_spec : Sort.torch_sort_spec torch_sort.
Hypothesis sort_spec' : Sort.torch_sort_spec torch_sort'.
Hypothesis nonempty : batch ≠ [].
Hypothesis step_positive : (0 < n_frames_per_step)%Z.
Hypothesis channels : Batch.consistent_channels batch.
Hypothesis no_ties : NoDup (Batch.input_lengths_of batch).

(** X18: when no two examples of the batch have the same input length,
    the order the collator takes them in is descending, keeps ties in
    batch order (there are none) and is the same across the five returned
    arrays; and the result is the same whichever sort meeting the promise
    of [torch.sort] is used. *)
Theorem collate_without_ties :
  ∃ out ids,
    TextMelCollate.__call__ zero one to_float32 debug torch_sort uninitialized
      n_frames_per_step batch = Ok out
    ∧ TextMelCollate.__call__ zero one to_float32 debug torch_sort'
        uninitialized n_frames_per_step batch = Ok out
    ∧ ids ≡ₚ seq 0 (length batch)
    ∧ Batch.descending batch ids
    ∧ Batch.ties_in_original_order batch ids
    ∧ Batch.ordered_by zero one to_float32 batch ids out.
Proof.
  destruct (call_spec zero one to_float32 debug torch_sort uninitialized
              n_frames_per_step batch sort_spec nonempty step_positive
              channels)
    as (out & Hcall & _ & _ & _ & _ & _ & _ & _ & _ & _ & _ & _ & Hord).
  pose proof (ids_Permutation torch_sort batch sort_spec) as Hperm.
  exists out, (Batch.sorted_ids torch_sort batch). split_and!; try done.
  - rewrite <-Hcall. unfold TextMelCollate.__call__.
    change ((λ x : list Z * tensor2 F, Z.of_nat (length x.1)) <$> batch)
      with (Batch.input_lengths_of batch).
    by rewrite (sort_determined_without_ties torch_sort' torch_sort _
                  sort_spec' sort_spec no_ties).
  - by apply ids_descending.
  - intros i j a b xa xb Hij Ha Hb Hxa Hxb Hlen. exfalso.
    assert (Hne : a ≠ b).
    { intros ->.
      assert (Hnodup : NoDup (Batch.sorted_ids torch_sort batch))
        by (rewrite Hperm; apply NoDup_seq).
      pose proof (NoDup_lookup _ _ _ _ Hnodup Ha Hb). lia. }
    apply Hne.
    apply (NoDup_lookup _ a b (Z.of_nat (length xa.1)) no_ties);
      unfold Batch.input_lengths_of; rewrite list_lookup_fmap.
    + by rewrite Hxa.
    + by rewrite Hxb, Hlen.
Qed.
End collate_without_ties.

Lemma batch_17_lengths_channels :
  Batch.consistent_channels Samples.batch_17_lengths.
Proof.
  intros x y Hx Hy. unfold Samples.batch_17_lengths in *.
  apply list_elem_of_fmap in Hx as (i & -> & _).
  apply list_elem_of_fmap in Hy as (j & -> & _). reflexivity.
Qed.

Lemma collate_without_ties_witness :
  ∃ out ids,
    Fixture.collate Sort.stable_sort 2 Samples.batch_17_lengths = Ok out
    ∧ Fixture.collate Sort.unstable_sort 2 Samples.batch_17_lengths = Ok out
    ∧ ids ≡ₚ seq 0 17
    ∧ Batch.descending Samples.batch_17_lengths ids
    ∧ Batch.ties_in_original_order Samples.batch_17_lengths ids
    ∧ Batch.ordered_by 0%Z 1%Z Fixture.to_float32 Samples.batch_17_lengths
        ids out.
Proof.
  apply (collate_without_ties 0%Z 1%Z Fixture.to_float32 true
           Sort.stable_sort Sort.unstable_sort (λ _, (-1)%Z) 2%Z
           Samples.batch_17_lengths stable_sort_spec unstable_sort_spec).
  - discriminate.
  - lia.
  - exact batch_17_lengths_channels.
  - apply (bool_decide_unpack _). vm_compute. exact I.
Defined.
